(** * ifc-reader: the file reader of [ifc::File] (lib/core/src/File.cpp)

    A shallow embedding of [File::Impl] and of the public [File] operations
    built on it: the structural open (signature gate, size check, table of
    contents), the partition resolver and its caches, the lazily built trait
    maps, string resolution and the lookup of imported modules.

    Conventions.
    - The blob is a list of bytes together with the address of its first
      byte; a pointer is an absolute address (a [Z]).
    - Every load from the blob is an effect: it is recorded in a trace, and a
      load outside the blob has no defined behaviour ([Undefined]).
    - [size_t] is 64 bits wide; its arithmetic wraps ([wrap_size_t]).
    - The layouts of the records overlaid on the blob are fixed by the
      headers ifc/File.h and ifc/Trait.h; here they are parameters ([Layout],
      [RecordType]), and so is whether [assert] is compiled in ([NDEBUG]). *)

From Stdlib Require Import ZArith String Ascii.
From Stdlib Require Import Strings.Byte.
From stdpp Require Import base option list gmap strings.

Local Open Scope Z_scope.

(** ** Bytes, blobs and outcomes *)

#[global] Instance byte_eq_dec : EqDecision byte := Byte.byte_eq_dec.

(** [BlobView = std::span<std::byte const>]: [data()] and the bytes. *)
Record BlobView := {
  blob_data : Z;
  blob_bytes : list byte
}.

Definition blob_size (blob : BlobView) : Z := Z.of_nat (length (blob_bytes blob)).

(** The exceptions the reader throws. [out_of_range] is what
    [std::unordered_map::at] throws for a key that is not in the map. *)
Inductive exception :=
| invalid_argument (what : string)
| runtime_error (what : string)
| out_of_range.

#[global] Instance exception_eq_dec : EqDecision exception.
Proof. solve_decision. Defined.

(** How a call ends: with a value, with an exception, in a failed [assert]
    (the program aborts), or outside defined behaviour. *)
Inductive Outcome (A : Type) :=
| Ok (a : A)
| Throw (e : exception)
| AssertFailed
| Undefined.

Arguments Ok {A} a.
Arguments Throw {A} e.
Arguments AssertFailed {A}.
Arguments Undefined {A}.

Definition outcome_map {A B} (f : A → B) (o : Outcome A) : Outcome B :=
  match o with
  | Ok a => Ok (f a)
  | Throw e => Throw e
  | AssertFailed => AssertFailed
  | Undefined => Undefined
  end.

(** What a call does that is visible from outside: loads from the blob (by
    offset from its first byte) and calls into the environment. *)
Inductive event :=
| ReadByte (off : Z)
| EnvQuery (name : string).

#[global] Instance event_eq_dec : EqDecision event.
Proof. solve_decision. Defined.

(** ** The reader monad: blob in, outcome and trace out *)

Definition Rd (A : Type) : Type := BlobView → Outcome A * list event.

Definition rd_ret {A} (a : A) : Rd A := λ _, (Ok a, []).

Definition rd_bind {A B} (m : Rd A) (k : A → Rd B) : Rd B :=
  λ blob,
    match m blob with
    | (Ok a, t) => let '(r, t') := k a blob in (r, t ++ t')
    | (Throw e, t) => (Throw e, t)
    | (AssertFailed, t) => (AssertFailed, t)
    | (Undefined, t) => (Undefined, t)
    end.

Definition rd_throw {A} (e : exception) : Rd A := λ _, (Throw e, []).
Definition rd_assert_failed {A} : Rd A := λ _, (AssertFailed, []).
Definition rd_blob : Rd BlobView := λ blob, (Ok blob, []).

(** The outcome and the trace of a run. *)
Definition outcome_of {A} (m : Rd A) (blob : BlobView) : Outcome A := fst (m blob).
Definition trace_of {A} (m : Rd A) (blob : BlobView) : list event := snd (m blob).

Definition outcome_bind {A B} (o : Outcome A) (k : A → Outcome B) : Outcome B :=
  match o with
  | Ok a => k a
  | Throw e => Throw e
  | AssertFailed => AssertFailed
  | Undefined => Undefined
  end.

Declare Scope rd_scope.
Delimit Scope rd_scope with rd.
Notation "'let*' x ':=' m 'in' k" := (rd_bind m (λ x, k))
  (at level 10, x pattern, m at level 100, k at level 200) : rd_scope.
Local Open Scope rd_scope.

Fixpoint rd_mapM {A B} (f : A → Rd B) (l : list A) : Rd (list B) :=
  match l with
  | [] => rd_ret []
  | x :: l' =>
      let* y := f x in
      let* ys := rd_mapM f l' in
      rd_ret (y :: ys)
  end.

Fixpoint rd_foldM {A B} (f : A → B → Rd A) (a : A) (l : list B) : Rd A :=
  match l with
  | [] => rd_ret a
  | x :: l' => let* a' := f a x in rd_foldM f a' l'
  end.

(** One load: [blob_[off]] (or [*(blob_.data() + off)]); no bounds check in
    the source, hence [Undefined] outside the blob. *)
Definition read_byte (off : Z) : Rd byte :=
  λ blob,
    (if decide (0 ≤ off)
     then match blob_bytes blob !! Z.to_nat off with
          | Some c => Ok c
          | None => Undefined
          end
     else Undefined,
     [ReadByte off]).

Definition offsets_from (off : Z) (n : nat) : list Z :=
  (λ i : nat, off + Z.of_nat i) <$> seq 0 n.

Definition read_bytes (off : Z) (n : nat) : Rd (list byte) :=
  rd_mapM read_byte (offsets_from off n).

(** The format is little-endian. *)
Definition le_value (bs : list byte) : Z :=
  foldr (λ c acc, Z.of_N (Byte.to_N c) + 256 * acc) 0 bs.

Definition read_u32 (off : Z) : Rd Z :=
  let* bs := read_bytes off 4 in rd_ret (le_value bs).

(** A load through a pointer: the offset is the distance to [blob_.data()]. *)
Definition load_u32 (p : Z) : Rd Z :=
  let* blob := rd_blob in read_u32 (p - blob_data blob).

(** Reading a C string ([strlen], as the conversions of [const char*] to
    [std::string_view] and [std::string] do): bytes up to the first NUL. *)
Fixpoint cstring_from (bytes : list byte) (off : Z) : Outcome string * list event :=
  match bytes with
  | [] => (Undefined, [ReadByte off])
  | c :: rest =>
      if decide (c = x00) then (Ok EmptyString, [ReadByte off])
      else
        let '(r, t) := cstring_from rest (off + 1) in
        (outcome_map (String (ascii_of_byte c)) r, ReadByte off :: t)
  end.

Definition read_cstring (off : Z) : Rd string :=
  λ blob,
    if decide (0 ≤ off)
    then cstring_from (drop (Z.to_nat off) (blob_bytes blob)) off
    else (Undefined, [ReadByte off]).

Definition load_cstring (p : Z) : Rd string :=
  let* blob := rd_blob in read_cstring (p - blob_data blob).

(** ** Integer types *)

Definition size_t_bits : Z := 64.
Definition wrap_size_t (n : Z) : Z := n mod 2 ^ size_t_bits.

(** Modelled from the spec: [raw_count] (ifc/common_types.h is not among the
    sources): "a single conversion yields the usable count" of the opaque
    scalar that wraps an unsigned integer. *)
Definition raw_count (n : Z) : Z := n.

(** Modelled from the spec: [is_null] on a [TextOffset]; the null bit pattern
    is the value-initialised one, zero. *)
Definition is_null (t : Z) : bool := bool_decide (t = 0).

(** [FileSignature = std::array<std::byte, 4>] *)
Definition CANONICAL_FILE_SIGNATURE : list byte := [x54; x51; x45; x1a].
Definition sizeof_FileSignature : Z := 4.

(** ** Layout of the records the reader overlays on the blob *)

(** A [PartitionSummary] by value (a descriptor of the table of contents):
    [name], [offset], [cardinality], [entry_size]. *)
Record PartitionSummary := {
  ps_name : Z;
  ps_offset : Z;
  ps_cardinality : Z;
  ps_entry_size : Z
}.

(** [FileHeader] and [PartitionSummary] are declared in ifc/File.h. The
    reader needs the sizes of the two records, where their fields are (the
    fields are 32-bit scalars), and what [PartitionSummary::size_bytes]
    answers for a descriptor. *)
Record Layout := {
  sizeof_FileHeader : Z;
  offsetof_string_table_bytes : Z;
  offsetof_string_table_size : Z;
  offsetof_global_scope : Z;
  offsetof_toc : Z;
  offsetof_partition_count : Z;
  sizeof_PartitionSummary : Z;
  offsetof_name : Z;
  offsetof_offset : Z;
  offsetof_cardinality : Z;
  offsetof_entry_size : Z;
  PartitionSummary_size_bytes : PartitionSummary → Z
}.

(** [Partition<T, Index>]: a [std::span<T const>], pointer and length. *)
Record Partition := {
  p_data : Z;
  p_size : Z
}.

#[global] Instance Partition_eq_dec : EqDecision Partition.
Proof. solve_decision. Defined.

(** [std::span<PartitionSummary const>] *)
Record TocSpan := {
  toc_data : Z;
  toc_count : Z
}.

(** [UntypedPartition] of the cache table: [const void*] and [size_t]. *)
Record UntypedPartition := {
  up_data : Z;
  up_size : Z
}.

(** [Sequence]: a run [start, start + cardinality) of a heap or partition. *)
Record Sequence := {
  seq_start : Z;
  seq_cardinality : Z
}.

(** [ModuleReference]: two text offsets. *)
Record ModuleReference := {
  mr_owner : Z;
  mr_partition : Z
}.

(** What the generic code knows of a record type [T]: [sizeof(T)],
    [T::PartitionName], and how a [T] is loaded from an address. *)
Record RecordType (V : Type) := {
  sizeof_T : Z;
  PartitionName : string;
  load_T : Z → Rd V
}.

Arguments sizeof_T {V} _.
Arguments PartitionName {V} _.
Arguments load_T {V} _ _.

(** [enum class FilePartitionCache : uint32_t]. Its last enumerator, [Num],
    is the number of slots of the cache table and names no slot. *)
Module FilePartitionCache.

Inductive t :=
  | Declarations | ScopeDeclarations | TemplateDeclarations
  | PartialSpecializations | Specializations | UsingDeclarations
  | Enumerations | Enumerators | AliasDeclarations
  | DeclReferences | Functions | Methods
  | Constructors | Destructors | Variables
  | Parameters | Fields | Friends
  | Concepts | IntrinsicDeclarations | SpecializationForms
  | FundamentalTypes | DesignatedTypes | TorTypes
  | SyntacticTypes | ExpansionTypes | PointerTypes
  | FunctionTypes | MethodTypes | ArrayTypes
  | BaseTypes | TupleTypes | LvalueReferences
  | RvalueReferences | QualifiedTypes | ForallTypes
  | SyntaxTypes | PlaceholderTypes | TypenameTypes
  | DecltypeTypes | BasicAttributes | ScopedAttributes
  | LabeledAttributes | CalledAttributes | ExpandedAttributes
  | FactoredAttributes | ElaboratedAttributes | TupleAttributes
  | LiteralExpressions | TypeExpressions | DeclExpressions
  | UnqualifiedIdExpressions | TemplateIds | TemplateReferences
  | MonadExpressions | DyadExpressions | StringExpressions
  | CallExpressions | SizeofExpressions | AlignofExpressions
  | RequiresExpressions | TupleExpressions | PathExpressions
  | ReadExpressions | SyntaxTreeExpressions | ExpressionLists
  | QualifiedNameExpressions | PackedTemplateArguments | ProductValueTypeExpressions
  | SubojectValueExpressions | StringLiteralExpressions | TypeHeap
  | ExprHeap | AttrHeap | SyntaxHeap
  | OperatorNames | ConversionNames | LiteralNames
  | TemplateNames | SpecializationNames | SourceFileNames
  | DeductionGuideNames | UnilevelCharts | MultilevelCharts
  | IntegerLiterals | FpLiterals | SimpleTypeSpecifiers
  | DecltypeSpecifiers | TypeSpecifierSeqSyntaxTrees | DeclSpecifierSeqSyntaxTrees
  | TypeidSyntaxTrees | DeclaratorSyntaxTrees | PointerDeclaratorSyntaxTrees
  | FunctionDeclaratorSyntaxTrees | ParameterDeclaratorSyntaxTrees | ExpressionSyntaxTrees
  | RequiresClauseSyntaxTrees | SimpleRequirementSyntaxTrees | TypeRequirementSyntaxTrees
  | NestedRequirementSyntaxTrees | CompoundRequirementSyntaxTrees | RequirementBodySyntaxTrees
  | TypeTemplateArgumentSyntaxTrees | TemplateArgumentListSyntaxTrees | TemplateidSyntaxTrees
  | TypeTraitIntrinsicSyntaxTrees | TupleSyntaxTrees | ImportedModules
  | ExportedModules | DeductionGuides.

(** [(uint32_t)cache_type] *)
Definition cache_index (cache_type : t) : nat :=
  match cache_type with
  | Declarations => 0 | ScopeDeclarations => 1 | TemplateDeclarations => 2
  | PartialSpecializations => 3 | Specializations => 4 | UsingDeclarations => 5
  | Enumerations => 6 | Enumerators => 7 | AliasDeclarations => 8
  | DeclReferences => 9 | Functions => 10 | Methods => 11
  | Constructors => 12 | Destructors => 13 | Variables => 14
  | Parameters => 15 | Fields => 16 | Friends => 17
  | Concepts => 18 | IntrinsicDeclarations => 19 | SpecializationForms => 20
  | FundamentalTypes => 21 | DesignatedTypes => 22 | TorTypes => 23
  | SyntacticTypes => 24 | ExpansionTypes => 25 | PointerTypes => 26
  | FunctionTypes => 27 | MethodTypes => 28 | ArrayTypes => 29
  | BaseTypes => 30 | TupleTypes => 31 | LvalueReferences => 32
  | RvalueReferences => 33 | QualifiedTypes => 34 | ForallTypes => 35
  | SyntaxTypes => 36 | PlaceholderTypes => 37 | TypenameTypes => 38
  | DecltypeTypes => 39 | BasicAttributes => 40 | ScopedAttributes => 41
  | LabeledAttributes => 42 | CalledAttributes => 43 | ExpandedAttributes => 44
  | FactoredAttributes => 45 | ElaboratedAttributes => 46 | TupleAttributes => 47
  | LiteralExpressions => 48 | TypeExpressions => 49 | DeclExpressions => 50
  | UnqualifiedIdExpressions => 51 | TemplateIds => 52 | TemplateReferences => 53
  | MonadExpressions => 54 | DyadExpressions => 55 | StringExpressions => 56
  | CallExpressions => 57 | SizeofExpressions => 58 | AlignofExpressions => 59
  | RequiresExpressions => 60 | TupleExpressions => 61 | PathExpressions => 62
  | ReadExpressions => 63 | SyntaxTreeExpressions => 64 | ExpressionLists => 65
  | QualifiedNameExpressions => 66 | PackedTemplateArguments => 67 | ProductValueTypeExpressions => 68
  | SubojectValueExpressions => 69 | StringLiteralExpressions => 70 | TypeHeap => 71
  | ExprHeap => 72 | AttrHeap => 73 | SyntaxHeap => 74
  | OperatorNames => 75 | ConversionNames => 76 | LiteralNames => 77
  | TemplateNames => 78 | SpecializationNames => 79 | SourceFileNames => 80
  | DeductionGuideNames => 81 | UnilevelCharts => 82 | MultilevelCharts => 83
  | IntegerLiterals => 84 | FpLiterals => 85 | SimpleTypeSpecifiers => 86
  | DecltypeSpecifiers => 87 | TypeSpecifierSeqSyntaxTrees => 88 | DeclSpecifierSeqSyntaxTrees => 89
  | TypeidSyntaxTrees => 90 | DeclaratorSyntaxTrees => 91 | PointerDeclaratorSyntaxTrees => 92
  | FunctionDeclaratorSyntaxTrees => 93 | ParameterDeclaratorSyntaxTrees => 94 | ExpressionSyntaxTrees => 95
  | RequiresClauseSyntaxTrees => 96 | SimpleRequirementSyntaxTrees => 97 | TypeRequirementSyntaxTrees => 98
  | NestedRequirementSyntaxTrees => 99 | CompoundRequirementSyntaxTrees => 100 | RequirementBodySyntaxTrees => 101
  | TypeTemplateArgumentSyntaxTrees => 102 | TemplateArgumentListSyntaxTrees => 103 | TemplateidSyntaxTrees => 104
  | TypeTraitIntrinsicSyntaxTrees => 105 | TupleSyntaxTrees => 106 | ImportedModules => 107
  | ExportedModules => 108 | DeductionGuides => 109
  end%nat.

Definition Num : nat := 110.

End FilePartitionCache.

(** Value initialisation, [T{}]. *)
Class ValueInit (A : Type) := value_init : A.

#[global] Instance TextOffset_value_init : ValueInit Z := 0.
#[global] Instance span_value_init {A} : ValueInit (list A) := [].
#[global] Instance Sequence_value_init : ValueInit Sequence :=
  {| seq_start := 0; seq_cardinality := 0 |}.

(** ** File::Impl *)

Record Impl := {
  blob_ : BlobView;
  table_of_contents_ : gmap string Z;
  trait_deprecation_texts_ : option (gmap Z Z);
  trait_declaration_attributes_ : option (gmap Z (list Z));
  trait_friendship_of_class_ : option (gmap Z Sequence);
  cached_partitions_ : list (option UntypedPartition)
}.

Section Reader.

Variable L : Layout.

(** [true] when the translation unit is compiled with [NDEBUG]: [assert]
    expands to nothing. *)
Variable NDEBUG : bool.

(** Modelled from the spec: [sizeof(Structure)] is
    [sizeof(signature) + sizeof(header)], the header being "the record at
    offset 4", immediately after the signature. *)
Definition sizeof_Structure : Z := sizeof_FileSignature + sizeof_FileHeader L.

(** [structure()->signature], compared as a whole. *)
Definition structure_signature : Rd (list byte) := read_bytes 0 4.

(** A field of [header()], that is of [structure()->header]. *)
Definition header_field (offsetof_field : Z) : Rd Z :=
  read_u32 (sizeof_FileSignature + offsetof_field).

(** [get_raw_pointer(offset)] *)
Definition get_raw_pointer (offset : Z) : Rd Z :=
  let* blob := rd_blob in rd_ret (blob_data blob + offset).

(** [get_pointer<T>(offset)] *)
Definition get_pointer (offset : Z) : Rd Z := get_raw_pointer offset.

(** [table_of_contents()] *)
Definition table_of_contents : Rd TocSpan :=
  let* toc := header_field (offsetof_toc L) in
  let* p := get_pointer toc in
  let* partition_count := header_field (offsetof_partition_count L) in
  rd_ret {| toc_data := p; toc_count := raw_count partition_count |}.

(** [std::span::size_bytes] *)
Definition toc_size_bytes (toc : TocSpan) : Z :=
  wrap_size_t (toc_count toc * sizeof_PartitionSummary L).

(** The addresses a range-for over the span visits. *)
Definition span_elements (data : Z) (count : Z) (elem_size : Z) : list Z :=
  (λ i : nat, data + Z.of_nat i * elem_size) <$> seq 0 (Z.to_nat count).

Definition toc_elements (toc : TocSpan) : list Z :=
  span_elements (toc_data toc) (toc_count toc) (sizeof_PartitionSummary L).

(** A copy of the descriptor a [PartitionSummary const*] points to. *)
Definition load_PartitionSummary (partition : Z) : Rd PartitionSummary :=
  let* name := load_u32 (partition + offsetof_name L) in
  let* offset := load_u32 (partition + offsetof_offset L) in
  let* cardinality := load_u32 (partition + offsetof_cardinality L) in
  let* entry_size := load_u32 (partition + offsetof_entry_size L) in
  rd_ret {| ps_name := name; ps_offset := offset;
            ps_cardinality := cardinality; ps_entry_size := entry_size |}.

(** [partition.size_bytes()] through a reference to the descriptor. *)
Definition partition_size_bytes (partition : Z) : Rd Z :=
  let* d := load_PartitionSummary partition in
  rd_ret (PartitionSummary_size_bytes L d).

(** [calc_size()] *)
Definition calc_size : Rd Z :=
  let* string_table_size := header_field (offsetof_string_table_size L) in
  let result := wrap_size_t (sizeof_Structure + raw_count string_table_size) in
  let* toc := table_of_contents in
  let result := wrap_size_t (result + toc_size_bytes toc) in
  rd_foldM
    (λ result partition,
       let* n := partition_size_bytes partition in
       rd_ret (wrap_size_t (result + n)))
    result (toc_elements toc).

(** [get_string(index)]: a pointer into the string table. *)
Definition get_string (index : Z) : Rd Z :=
  let* string_table_bytes := header_field (offsetof_string_table_bytes L) in
  let* p := get_pointer string_table_bytes in
  rd_ret (p + index).

(** [std::unordered_map::emplace]: nothing happens when the key is there. *)
Definition emplace {V} (m : gmap string V) (k : string) (v : V) : gmap string V :=
  match m !! k with
  | Some _ => m
  | None => <[k := v]> m
  end.

(** [get_string(partition.name)] converted to the [std::string_view] that is
    the key of [table_of_contents_]. *)
Definition partition_name (partition : Z) : Rd string :=
  let* name := load_u32 (partition + offsetof_name L) in
  let* s := get_string name in
  load_cstring s.

(** The body of the loop of the constructor:
    [table_of_contents_.emplace(get_string(partition.name), &partition)]. *)
Definition toc_insert (m : gmap string Z) (partition : Z) : Rd (gmap string Z) :=
  let* key := partition_name partition in
  rd_ret (emplace m key partition).

(** [File::Impl::Impl(BlobView blob)] *)
Definition Impl_ctor : Rd Impl :=
  let* signature := structure_signature in
  if decide (signature ≠ CANONICAL_FILE_SIGNATURE)
  then rd_throw (invalid_argument "corrupted file signature")
  else
    let* size := calc_size in
    let* blob := rd_blob in
    if decide (size ≠ blob_size blob)
    then rd_throw (runtime_error "corrupted file")
    else
      let* toc := table_of_contents in
      let* m := rd_foldM toc_insert ∅ (toc_elements toc) in
      rd_ret {| blob_ := blob;
                table_of_contents_ := m;
                trait_deprecation_texts_ := None;
                trait_declaration_attributes_ := None;
                trait_friendship_of_class_ := None;
                cached_partitions_ := replicate FilePartitionCache.Num None |}.

(** [File::File(BlobView data)]: [impl_(std::make_unique<Impl>(data))]. *)
Definition File_ctor (data : BlobView) : Outcome Impl * list event :=
  Impl_ctor data.

(** *** The partition resolver *)

(** [get_partition<T, Index>(PartitionSummary const* partition)] *)
Definition get_partition_at {V} (T : RecordType V) (partition : Z) : Rd Partition :=
  let* _ :=
    (if NDEBUG then rd_ret ()
     else
       let* entry_size := load_u32 (partition + offsetof_entry_size L) in
       if decide (entry_size = sizeof_T T) then rd_ret () else rd_assert_failed) in
  let* offset := load_u32 (partition + offsetof_offset L) in
  let* data := get_pointer offset in
  let* cardinality := load_u32 (partition + offsetof_cardinality L) in
  rd_ret {| p_data := data; p_size := raw_count cardinality |}.

(** [try_get_partition<T, Index>(std::string_view name)]. The trace holds
    the loads the reader makes itself. The keys of [table_of_contents_] are
    [string_view]s into the string table, so [find] may also compare [name]
    with bytes of the blob; which keys it compares depends on the hashing of
    the standard library, and those loads are not recorded. *)
Definition try_get_partition {V} (T : RecordType V) (name : string) (self : Impl)
  : Rd (option Partition) :=
  match table_of_contents_ self !! name with
  | None => rd_ret None
  | Some partition =>
      let* p := get_partition_at T partition in rd_ret (Some p)
  end.

(** [get_partition<T, Index>(std::string_view name)], through
    [table_of_contents_.at(name)]; as for [try_get_partition], the loads of
    the key comparison inside [at] are not recorded in the trace. *)
Definition get_partition {V} (T : RecordType V) (name : string) (self : Impl)
  : Rd Partition :=
  match table_of_contents_ self !! name with
  | None => rd_throw out_of_range
  | Some partition => get_partition_at T partition
  end.

(** *** Methods that change the state of the object *)

Definition St (A : Type) : Type := Impl → Outcome A * Impl.

Definition st_ret {A} (a : A) : St A := λ self, (Ok a, self).

Definition st_bind {A B} (m : St A) (k : A → St B) : St B :=
  λ self,
    match m self with
    | (Ok a, self') => k a self'
    | (Throw e, self') => (Throw e, self')
    | (AssertFailed, self') => (AssertFailed, self')
    | (Undefined, self') => (Undefined, self')
    end.

(** A [const] method that only reads the blob of the object. *)
Definition st_const {A} (m : Impl → Rd A) : St A :=
  λ self, (fst (m self (blob_ self)), self).

Notation "'let+' x ':=' m 'in' k" := (st_bind m (λ x, k))
  (at level 10, x pattern, m at level 100, k at level 200).

Fixpoint st_for {B} (l : list B) (body : B → St ()) : St () :=
  match l with
  | [] => st_ret ()
  | x :: l' => let+ _ := body x in st_for l' body
  end.

Definition set_cached_partitions (c : list (option UntypedPartition)) (self : Impl) : Impl :=
  {| blob_ := blob_ self;
     table_of_contents_ := table_of_contents_ self;
     trait_deprecation_texts_ := trait_deprecation_texts_ self;
     trait_declaration_attributes_ := trait_declaration_attributes_ self;
     trait_friendship_of_class_ := trait_friendship_of_class_ self;
     cached_partitions_ := c |}.

Definition set_trait_deprecation_texts (m : option (gmap Z Z)) (self : Impl) : Impl :=
  {| blob_ := blob_ self;
     table_of_contents_ := table_of_contents_ self;
     trait_deprecation_texts_ := m;
     trait_declaration_attributes_ := trait_declaration_attributes_ self;
     trait_friendship_of_class_ := trait_friendship_of_class_ self;
     cached_partitions_ := cached_partitions_ self |}.

Definition set_trait_declaration_attributes (m : option (gmap Z (list Z))) (self : Impl) : Impl :=
  {| blob_ := blob_ self;
     table_of_contents_ := table_of_contents_ self;
     trait_deprecation_texts_ := trait_deprecation_texts_ self;
     trait_declaration_attributes_ := m;
     trait_friendship_of_class_ := trait_friendship_of_class_ self;
     cached_partitions_ := cached_partitions_ self |}.

Definition set_trait_friendship_of_class (m : option (gmap Z Sequence)) (self : Impl) : Impl :=
  {| blob_ := blob_ self;
     table_of_contents_ := table_of_contents_ self;
     trait_deprecation_texts_ := trait_deprecation_texts_ self;
     trait_declaration_attributes_ := trait_declaration_attributes_ self;
     trait_friendship_of_class_ := m;
     cached_partitions_ := cached_partitions_ self |}.

(** [get_and_cache_partition<T, Index>(name, cache_type)]. The table is
    [mutable]; a slot holds the pointer and the length without the type. *)
Definition get_and_cache_partition {V} (T : RecordType V) (name : string)
    (cache_type : FilePartitionCache.t) : St Partition :=
  λ self,
    let cache_index := FilePartitionCache.cache_index cache_type in
    match cached_partitions_ self !! cache_index with
    | None => (Undefined, self)
    | Some (Some partition) =>
        (Ok {| p_data := up_data partition; p_size := up_size partition |}, self)
    | Some None =>
        match fst (get_partition T name self (blob_ self)) with
        | Ok result =>
            (Ok result,
             set_cached_partitions
               (<[cache_index := Some {| up_data := p_data result;
                                        up_size := p_size result |}]>
                  (cached_partitions_ self))
               self)
        | Throw e => (Throw e, self)
        | AssertFailed => (AssertFailed, self)
        | Undefined => (Undefined, self)
        end
    end.

(** [get_and_cache_partition<T, Index>(cache_type)]: under [T::PartitionName]. *)
Definition get_and_cache_partition_canonical {V} (T : RecordType V)
    (cache_type : FilePartitionCache.t) : St Partition :=
  get_and_cache_partition T (PartitionName T) cache_type.

(** [File::get_partition_with_cache<T, Index>(cache, name)] of the variant of
    the reader that keeps one [std::optional<Partition<T, Index>>] member per
    accessor in [File]; the member is passed by reference. *)
Definition get_partition_with_cache {V} (T : RecordType V)
    (cache : option Partition) (name : string) (impl_ : Impl)
  : Outcome Partition * option Partition :=
  match cache with
  | Some p => (Ok p, cache)
  | None =>
      match fst (get_partition T name impl_ (blob_ impl_)) with
      | Ok result => (Ok result, Some result)
      | Throw e => (Throw e, cache)
      | AssertFailed => (AssertFailed, cache)
      | Undefined => (Undefined, cache)
      end
  end.

(** The public partition accessors: each one is a call of
    [get_and_cache_partition] with its own slot, under the canonical name of
    its record type or under an explicit name; [scope_descriptors] (and
    [deduction_guides] in the variant without the cache table) calls
    [get_partition] each time. *)
Inductive Accessor {V} :=
| CanonicalName (T : RecordType V) (slot : FilePartitionCache.t)
| ExplicitName (T : RecordType V) (name : string) (slot : FilePartitionCache.t)
| Uncached (T : RecordType V) (name : string).

Definition call_accessor {V} (P : @Accessor V) : St Partition :=
  match P with
  | CanonicalName T slot => get_and_cache_partition_canonical T slot
  | ExplicitName T name slot => get_and_cache_partition T name slot
  | Uncached T name => st_const (get_partition T name)
  end.

(** Four of them as they are written in the source:
    [File::scope_descriptors()], [File::declarations()], [File::type_heap()]
    and [File::imported_modules()]. *)
Definition File_scope_descriptors {V} (Sequence : RecordType V) : St Partition :=
  st_const (get_partition Sequence "scope.desc").

Definition File_declarations {V} (Declaration : RecordType V) : St Partition :=
  get_and_cache_partition_canonical Declaration FilePartitionCache.Declarations.

Definition File_type_heap {V} (TypeIndex : RecordType V) : St Partition :=
  get_and_cache_partition TypeIndex "heap.type" FilePartitionCache.TypeHeap.

Definition File_imported_modules {V} (ModuleReference : RecordType V) : St Partition :=
  get_and_cache_partition ModuleReference "module.imported"
    FilePartitionCache.ImportedModules.

(** *** Trait maps *)

(** The three instances of [AssociatedTrait<T>], a pair of a [DeclIndex]
    [decl] and a [T] [trait]; ifc/Trait.h fixes their layout. *)
Variable AssociatedTrait_AttrIndex : RecordType (Z * Z).
Variable AssociatedTrait_TextOffset : RecordType (Z * Z).
Variable AssociatedTrait_Sequence : RecordType (Z * Sequence).

(** A range-for over a [Partition<T>]: the elements are copied out of the
    blob one after the other, [sizeof(T)] bytes apart. *)
Definition partition_elements {V} (T : RecordType V) (p : Partition) : list Z :=
  span_elements (p_data p) (p_size p) (sizeof_T T).

Definition for_each {V} (T : RecordType V) (p : Partition) (body : V → St ()) : St () :=
  st_for (partition_elements T p)
    (λ addr, let+ x := st_const (λ _, load_T T addr) in body x).

(** [( *trait_declaration_attributes_)[decl].push_back(trait)] *)
Definition push_back_attribute (decl trait : Z) : St () :=
  λ self,
    match trait_declaration_attributes_ self with
    | None => (Undefined, self)
    | Some m =>
        (Ok (),
         set_trait_declaration_attributes
           (Some (<[decl := default [] (m !! decl) ++ [trait]]> m)) self)
    end.

(** [fill_decl_attributes(partition)] *)
Definition fill_decl_attributes (partition : string) : St () :=
  let+ attributes := st_const (try_get_partition AssociatedTrait_AttrIndex partition) in
  match attributes with
  | Some attributes =>
      for_each AssociatedTrait_AttrIndex attributes
        (λ attribute, push_back_attribute (fst attribute) (snd attribute))
  | None => st_ret ()
  end.

(** [File::Impl::trait_declaration_attributes()] *)
Definition Impl_trait_declaration_attributes : St (gmap Z (list Z)) :=
  λ self,
    match trait_declaration_attributes_ self with
    | Some m => (Ok m, self)
    | None =>
        (let+ _ := (λ self, (Ok (), set_trait_declaration_attributes (Some ∅) self)) in
         let+ _ := fill_decl_attributes "trait.attribute" in
         let+ _ := fill_decl_attributes ".msvc.trait.decl-attrs" in
         λ self,
           match trait_declaration_attributes_ self with
           | Some m => (Ok m, self)
           | None => (Undefined, self)
           end) self
    end.

(** [( *trait_deprecation_texts_)[deprecation.decl] = deprecation.trait] *)
Definition assign_deprecation_text (decl trait : Z) : St () :=
  λ self,
    match trait_deprecation_texts_ self with
    | None => (Undefined, self)
    | Some m => (Ok (), set_trait_deprecation_texts (Some (<[decl := trait]> m)) self)
    end.

(** [File::Impl::trait_deprecation_texts()] *)
Definition Impl_trait_deprecation_texts : St (gmap Z Z) :=
  λ self,
    match trait_deprecation_texts_ self with
    | Some m => (Ok m, self)
    | None =>
        (let+ _ := (λ self, (Ok (), set_trait_deprecation_texts (Some ∅) self)) in
         let+ deprecations :=
           st_const (try_get_partition AssociatedTrait_TextOffset "trait.deprecated") in
         let+ _ :=
           match deprecations with
           | Some deprecations =>
               for_each AssociatedTrait_TextOffset deprecations
                 (λ deprecation,
                    assign_deprecation_text (fst deprecation) (snd deprecation))
           | None => st_ret ()
           end in
         λ self,
           match trait_deprecation_texts_ self with
           | Some m => (Ok m, self)
           | None => (Undefined, self)
           end) self
    end.

(** [( *trait_friendship_of_class_)[friendship.decl] = friendship.trait] *)
Definition assign_friendship (decl : Z) (trait : Sequence) : St () :=
  λ self,
    match trait_friendship_of_class_ self with
    | None => (Undefined, self)
    | Some m => (Ok (), set_trait_friendship_of_class (Some (<[decl := trait]> m)) self)
    end.

(** [File::Impl::trait_friendship_of_class()] *)
Definition Impl_trait_friendship_of_class : St (gmap Z Sequence) :=
  λ self,
    match trait_friendship_of_class_ self with
    | Some m => (Ok m, self)
    | None =>
        (let+ _ := (λ self, (Ok (), set_trait_friendship_of_class (Some ∅) self)) in
         let+ friendships :=
           st_const (try_get_partition AssociatedTrait_Sequence "trait.friend") in
         let+ _ :=
           match friendships with
           | Some friendships =>
               for_each AssociatedTrait_Sequence friendships
                 (λ friendship, assign_friendship (fst friendship) (snd friendship))
           | None => st_ret ()
           end in
         λ self,
           match trait_friendship_of_class_ self with
           | Some m => (Ok m, self)
           | None => (Undefined, self)
           end) self
    end.

(** [get_value<RetType, Value>(declaration, map)]; [conv] is the implicit
    conversion of the [return it->second;]. *)
Definition get_value {RetType Value} `{ValueInit RetType} (conv : Value → RetType)
    (declaration : Z) (map : gmap Z Value) : RetType :=
  match map !! declaration with
  | Some v => conv v
  | None => value_init
  end.

(** [File::trait_deprecation_texts(declaration)] *)
Definition File_trait_deprecation_texts (declaration : Z) : St Z :=
  let+ map := Impl_trait_deprecation_texts in
  st_ret (get_value (λ v : Z, v) declaration map).

(** [File::trait_declaration_attributes(declaration)]; the span is given by
    its elements. *)
Definition File_trait_declaration_attributes (declaration : Z) : St (list Z) :=
  let+ map := Impl_trait_declaration_attributes in
  st_ret (get_value (λ v : list Z, v) declaration map).

(** [File::trait_friendship_of_class(declaration)] *)
Definition File_trait_friendship_of_class (declaration : Z) : St Sequence :=
  let+ map := Impl_trait_friendship_of_class in
  st_ret (get_value (λ v : Sequence, v) declaration map).

(** *** Imported modules *)

(** [env_->get_module_by_name(name)]; the environment is a collaborator and
    [env] stands for what it answers. *)
Definition get_module_by_name {R} (env : string → R) (name : string) : Rd R :=
  λ _, (Ok (env name), [EnvQuery name]).

(** [File::get_string(index)] followed by the conversion of the [const char*]
    to a string. *)
Definition get_string_value (index : Z) : Rd string :=
  let* p := get_string index in load_cstring p.

(** [File::get_imported_module(module)] *)
Definition File_get_imported_module {R} (env : string → R) (module : ModuleReference)
  : Rd R :=
  let owner := mr_owner module in
  if is_null owner
  then
    let* name := get_string_value (mr_partition module) in
    get_module_by_name env name
  else
    let* name := get_string_value owner in
    let partition := mr_partition module in
    let* name :=
      (if negb (is_null partition)
       then
         let* s := get_string_value partition in
         rd_ret (name +:+ ":" +:+ s)
       else rd_ret name) in
    get_module_by_name env name.

(** *** What the trait maps are specified against *)

(** The records of the partition listed under [name], in partition order;
    none when the table of contents does not list it. *)
Definition partition_records {V} (T : RecordType V) (name : string) (self : Impl)
  : Rd (list V) :=
  let* p := try_get_partition T name self in
  match p with
  | Some p => rd_mapM (load_T T) (partition_elements T p)
  | None => rd_ret []
  end.

(** The traits the records attach to the declaration [D], in the order of the
    records. *)
Definition entries_of {T} (D : Z) (records : list (Z * T)) : list T :=
  (filter (λ r, r.1 = D) records).*2.

Definition push_back (m : gmap Z (list Z)) (r : Z * Z) : gmap Z (list Z) :=
  <[r.1 := default [] (m !! r.1) ++ [r.2]]> m.

Definition assign {T} (m : gmap Z T) (r : Z * T) : gmap Z T := <[r.1 := r.2]> m.

(** A trait map that has been built holds what a scan of its partitions
    gives. *)
Definition declaration_attributes_ok (self : Impl) : Prop :=
  ∀ m, trait_declaration_attributes_ self = Some m →
    ∃ xs1 xs2,
      outcome_of (partition_records AssociatedTrait_AttrIndex "trait.attribute" self)
        (blob_ self) = Ok xs1
      ∧ outcome_of
          (partition_records AssociatedTrait_AttrIndex ".msvc.trait.decl-attrs" self)
          (blob_ self) = Ok xs2
      ∧ m = foldl push_back (foldl push_back ∅ xs1) xs2.

Definition deprecation_texts_ok (self : Impl) : Prop :=
  ∀ m, trait_deprecation_texts_ self = Some m →
    ∃ xs,
      outcome_of (partition_records AssociatedTrait_TextOffset "trait.deprecated" self)
        (blob_ self) = Ok xs
      ∧ m = foldl assign ∅ xs.

Definition friendship_of_class_ok (self : Impl) : Prop :=
  ∀ m, trait_friendship_of_class_ self = Some m →
    ∃ xs,
      outcome_of (partition_records AssociatedTrait_Sequence "trait.friend" self)
        (blob_ self) = Ok xs
      ∧ m = foldl assign ∅ xs.

(** *** The life of a file *)

(** One call of the public interface that returns or throws; a call that
    aborts or leaves defined behaviour has no successor state. *)
Inductive File_step : Impl → Impl → Prop :=
| step_accessor {V} (P : @Accessor V) self p self' :
    call_accessor P self = (Ok p, self') → File_step self self'
| step_accessor_throws {V} (P : @Accessor V) self e self' :
    call_accessor P self = (Throw e, self') → File_step self self'
| step_trait_declaration_attributes d self r self' :
    File_trait_declaration_attributes d self = (Ok r, self') → File_step self self'
| step_trait_deprecation_texts d self r self' :
    File_trait_deprecation_texts d self = (Ok r, self') → File_step self self'
| step_trait_friendship_of_class d self r self' :
    File_trait_friendship_of_class d self = (Ok r, self') → File_step self self'.

(** What holds of every state of a file opened on [data]. *)
Definition Impl_inv (data : BlobView) (self : Impl) : Prop :=
  blob_ self = data
  ∧ length (cached_partitions_ self) = FilePartitionCache.Num
  ∧ declaration_attributes_ok self
  ∧ deprecation_texts_ok self
  ∧ friendship_of_class_ok self.

(** The states of a file opened on [data]. *)
Definition File_reachable (data : BlobView) (self : Impl) : Prop :=
  ∃ self0, fst (File_ctor data) = Ok self0 ∧ rtc File_step self0 self.

End Reader.

(** The partition a descriptor resolves to. *)
Definition resolved (blob : BlobView) (d : PartitionSummary) : Partition :=
  {| p_data := blob_data blob + ps_offset d; p_size := ps_cardinality d |}.

(** The expected size of a file in the words of the format description:
    [sizeof(signature) + sizeof(header) + string_table_size + toc.size_bytes]
    plus the sum of [partition.size_bytes] over the table of contents, with
    [toc.size_bytes] the number of descriptors times the size of one. *)
Definition expected_size (L : Layout) (string_table_size partition_count : Z)
    (toc : list PartitionSummary) : Z :=
  sizeof_FileSignature + sizeof_FileHeader L + string_table_size
  + partition_count * sizeof_PartitionSummary L
  + foldr (λ d acc, PartitionSummary_size_bytes L d + acc) 0 toc.

(** The names the environment was asked for, in the order of the calls. *)
Definition env_queries (t : list event) : list string :=
  omap (λ e, match e with EnvQuery name => Some name | ReadByte _ => None end) t.

(** A computation that does not call the environment. *)
Definition reads_only {A} (m : Rd A) : Prop :=
  ∀ blob, env_queries (trace_of m blob) = [].

(** A computation that ends with a value or outside defined behaviour, but
    neither throws nor fails an assertion. *)
Definition never_throws {A} (m : Rd A) : Prop :=
  ∀ blob, match outcome_of m blob with
          | Throw _ | AssertFailed => False
          | Ok _ | Undefined => True
          end.

(** ** More of the reader: the accessor catalogue and other entry points *)

(** The cached accessors of [File] as the source lists them: the method, the
    slot it passes to [get_and_cache_partition], and the partition name when
    it passes one (the others go by [T::PartitionName]). *)
Definition public_accessors : list (string * FilePartitionCache.t * option string) :=
  [
    ("declarations", FilePartitionCache.Declarations, None);
    ("scope_declarations", FilePartitionCache.ScopeDeclarations, None);
    ("template_declarations", FilePartitionCache.TemplateDeclarations, None);
    ("partial_specializations", FilePartitionCache.PartialSpecializations, None);
    ("specializations", FilePartitionCache.Specializations, None);
    ("using_declarations", FilePartitionCache.UsingDeclarations, None);
    ("enumerations", FilePartitionCache.Enumerations, None);
    ("enumerators", FilePartitionCache.Enumerators, None);
    ("alias_declarations", FilePartitionCache.AliasDeclarations, None);
    ("decl_references", FilePartitionCache.DeclReferences, None);
    ("functions", FilePartitionCache.Functions, None);
    ("methods", FilePartitionCache.Methods, None);
    ("constructors", FilePartitionCache.Constructors, None);
    ("destructors", FilePartitionCache.Destructors, None);
    ("variables", FilePartitionCache.Variables, None);
    ("parameters", FilePartitionCache.Parameters, None);
    ("fields", FilePartitionCache.Fields, None);
    ("friends", FilePartitionCache.Friends, None);
    ("concepts", FilePartitionCache.Concepts, None);
    ("intrinsic_declarations", FilePartitionCache.IntrinsicDeclarations, None);
    ("specialization_forms", FilePartitionCache.SpecializationForms, None);
    ("fundamental_types", FilePartitionCache.FundamentalTypes, None);
    ("designated_types", FilePartitionCache.DesignatedTypes, None);
    ("tor_types", FilePartitionCache.TorTypes, None);
    ("syntactic_types", FilePartitionCache.SyntacticTypes, None);
    ("expansion_types", FilePartitionCache.ExpansionTypes, None);
    ("pointer_types", FilePartitionCache.PointerTypes, None);
    ("function_types", FilePartitionCache.FunctionTypes, None);
    ("method_types", FilePartitionCache.MethodTypes, None);
    ("array_types", FilePartitionCache.ArrayTypes, None);
    ("base_types", FilePartitionCache.BaseTypes, None);
    ("tuple_types", FilePartitionCache.TupleTypes, None);
    ("lvalue_references", FilePartitionCache.LvalueReferences, None);
    ("rvalue_references", FilePartitionCache.RvalueReferences, None);
    ("qualified_types", FilePartitionCache.QualifiedTypes, None);
    ("forall_types", FilePartitionCache.ForallTypes, None);
    ("syntax_types", FilePartitionCache.SyntaxTypes, None);
    ("placeholder_types", FilePartitionCache.PlaceholderTypes, None);
    ("typename_types", FilePartitionCache.TypenameTypes, None);
    ("decltype_types", FilePartitionCache.DecltypeTypes, None);
    ("basic_attributes", FilePartitionCache.BasicAttributes, None);
    ("scoped_attributes", FilePartitionCache.ScopedAttributes, None);
    ("labeled_attributes", FilePartitionCache.LabeledAttributes, None);
    ("called_attributes", FilePartitionCache.CalledAttributes, None);
    ("expanded_attributes", FilePartitionCache.ExpandedAttributes, None);
    ("factored_attributes", FilePartitionCache.FactoredAttributes, None);
    ("elaborated_attributes", FilePartitionCache.ElaboratedAttributes, None);
    ("tuple_attributes", FilePartitionCache.TupleAttributes, None);
    ("literal_expressions", FilePartitionCache.LiteralExpressions, None);
    ("type_expressions", FilePartitionCache.TypeExpressions, None);
    ("decl_expressions", FilePartitionCache.DeclExpressions, None);
    ("unqualified_id_expressions", FilePartitionCache.UnqualifiedIdExpressions, None);
    ("template_ids", FilePartitionCache.TemplateIds, None);
    ("template_references", FilePartitionCache.TemplateReferences, None);
    ("monad_expressions", FilePartitionCache.MonadExpressions, None);
    ("dyad_expressions", FilePartitionCache.DyadExpressions, None);
    ("string_expressions", FilePartitionCache.StringExpressions, None);
    ("call_expressions", FilePartitionCache.CallExpressions, None);
    ("sizeof_expressions", FilePartitionCache.SizeofExpressions, None);
    ("alignof_expressions", FilePartitionCache.AlignofExpressions, None);
    ("requires_expressions", FilePartitionCache.RequiresExpressions, None);
    ("tuple_expressions", FilePartitionCache.TupleExpressions, None);
    ("path_expressions", FilePartitionCache.PathExpressions, None);
    ("read_expressions", FilePartitionCache.ReadExpressions, None);
    ("syntax_tree_expressions", FilePartitionCache.SyntaxTreeExpressions, None);
    ("expression_lists", FilePartitionCache.ExpressionLists, None);
    ("qualified_name_expressions", FilePartitionCache.QualifiedNameExpressions, None);
    ("packed_template_arguments", FilePartitionCache.PackedTemplateArguments, None);
    ("product_value_type_expressions", FilePartitionCache.ProductValueTypeExpressions, None);
    ("suboject_value_expressions", FilePartitionCache.SubojectValueExpressions, None);
    ("string_literal_expressions", FilePartitionCache.StringLiteralExpressions, None);
    ("unilevel_charts", FilePartitionCache.UnilevelCharts, None);
    ("multilevel_charts", FilePartitionCache.MultilevelCharts, None);
    ("integer_literals", FilePartitionCache.IntegerLiterals, None);
    ("fp_literals", FilePartitionCache.FpLiterals, None);
    ("simple_type_specifiers", FilePartitionCache.SimpleTypeSpecifiers, None);
    ("decltype_specifiers", FilePartitionCache.DecltypeSpecifiers, None);
    ("type_specifier_seq_syntax_trees", FilePartitionCache.TypeSpecifierSeqSyntaxTrees, None);
    ("decl_specifier_seq_syntax_trees", FilePartitionCache.DeclSpecifierSeqSyntaxTrees, None);
    ("typeid_syntax_trees", FilePartitionCache.TypeidSyntaxTrees, None);
    ("declarator_syntax_trees", FilePartitionCache.DeclaratorSyntaxTrees, None);
    ("pointer_declarator_syntax_trees", FilePartitionCache.PointerDeclaratorSyntaxTrees, None);
    ("function_declarator_syntax_trees", FilePartitionCache.FunctionDeclaratorSyntaxTrees, None);
    ("parameter_declarator_syntax_trees", FilePartitionCache.ParameterDeclaratorSyntaxTrees, None);
    ("expression_syntax_trees", FilePartitionCache.ExpressionSyntaxTrees, None);
    ("requires_clause_syntax_trees", FilePartitionCache.RequiresClauseSyntaxTrees, None);
    ("simple_requirement_syntax_trees", FilePartitionCache.SimpleRequirementSyntaxTrees, None);
    ("type_requirement_syntax_trees", FilePartitionCache.TypeRequirementSyntaxTrees, None);
    ("nested_requirement_syntax_trees", FilePartitionCache.NestedRequirementSyntaxTrees, None);
    ("compound_requirement_syntax_trees", FilePartitionCache.CompoundRequirementSyntaxTrees, None);
    ("requirement_body_syntax_trees", FilePartitionCache.RequirementBodySyntaxTrees, None);
    ("type_template_argument_syntax_trees", FilePartitionCache.TypeTemplateArgumentSyntaxTrees, None);
    ("template_argument_list_syntax_trees", FilePartitionCache.TemplateArgumentListSyntaxTrees, None);
    ("templateid_syntax_trees", FilePartitionCache.TemplateidSyntaxTrees, None);
    ("type_trait_intrinsic_syntax_trees", FilePartitionCache.TypeTraitIntrinsicSyntaxTrees, None);
    ("tuple_syntax_trees", FilePartitionCache.TupleSyntaxTrees, None);
    ("operator_names", FilePartitionCache.OperatorNames, None);
    ("conversion_function_names", FilePartitionCache.ConversionNames, None);
    ("literal_names", FilePartitionCache.LiteralNames, None);
    ("template_names", FilePartitionCache.TemplateNames, None);
    ("specialization_names", FilePartitionCache.SpecializationNames, None);
    ("source_file_names", FilePartitionCache.SourceFileNames, None);
    ("deduction_guide_names", FilePartitionCache.DeductionGuideNames, None);
    ("type_heap", FilePartitionCache.TypeHeap, Some "heap.type");
    ("expr_heap", FilePartitionCache.ExprHeap, Some "heap.expr");
    ("attr_heap", FilePartitionCache.AttrHeap, Some "heap.attr");
    ("syntax_heap", FilePartitionCache.SyntaxHeap, Some "heap.syn");
    ("imported_modules", FilePartitionCache.ImportedModules, Some "module.imported");
    ("exported_modules", FilePartitionCache.ExportedModules, Some "module.exported");
    ("deduction_guides", FilePartitionCache.DeductionGuides, Some "name.guide")
  ].

(** The row of the catalogue that uses a slot. *)
Definition accessor_row (cache_type : FilePartitionCache.t)
  : option (string * FilePartitionCache.t * option string) :=
  snd <$> list_find
            (λ row, FilePartitionCache.cache_index row.1.2
                    = FilePartitionCache.cache_index cache_type)
            public_accessors.

(** The partition name the accessor of a slot passes, if it passes one. *)
Definition explicit_name (cache_type : FilePartitionCache.t) : option string :=
  row ← accessor_row cache_type; row.2.

(** The blob with more bytes after its last one. *)
Definition extended (data : BlobView) (extra : list byte) : BlobView :=
  {| blob_data := blob_data data; blob_bytes := blob_bytes data ++ extra |}.

(** A computation whose successful runs do not depend on what follows the
    blob. *)
Definition extension_stable {A} (m : Rd A) : Prop :=
  ∀ data extra a,
    outcome_of m data = Ok a → outcome_of m (extended data extra) = Ok a.

(** The trait the last record for [D] carries; the value-initialised one
    when no record is for [D]. *)
Definition last_entry {T} `{ValueInit T} (D : Z) (records : list (Z * T)) : T :=
  default value_init (last (entries_of D records)).

(** The position of the first descriptor with a given resolved name. *)
Definition first_named (name : string) (names : list string) : option nat :=
  fst <$> list_find (λ n, n = name) names.

Section Catalogue.

Variable L : Layout.
Variable NDEBUG : bool.
Variable AssociatedTrait_AttrIndex : RecordType (Z * Z).
Variable AssociatedTrait_TextOffset : RecordType (Z * Z).
Variable AssociatedTrait_Sequence : RecordType (Z * Sequence).

(** [File::get_data_pointer(partition)] *)
Definition File_get_data_pointer (partition : PartitionSummary) : Rd Z :=
  get_raw_pointer (ps_offset partition).

(** [try_get_partition<T, Index>()]: under [T::PartitionName]. *)
Definition try_get_partition_canonical {V} (T : RecordType V) (self : Impl)
  : Rd (option Partition) :=
  try_get_partition L NDEBUG T (PartitionName T) self.

(** The record type each cached accessor instantiates
    [get_and_cache_partition] with, by slot. *)
Variable V : Type.
Variable T_of : FilePartitionCache.t → RecordType V.

(** The cached accessor that uses a slot, as the catalogue has it. *)
Definition File_cached_accessor (cache_type : FilePartitionCache.t) : St Partition :=
  match explicit_name cache_type with
  | Some name => get_and_cache_partition L NDEBUG (T_of cache_type) name cache_type
  | None => get_and_cache_partition_canonical L NDEBUG (T_of cache_type) cache_type
  end.

(** The name under which that accessor resolves its partition. *)
Definition accessor_partition_name (cache_type : FilePartitionCache.t) : string :=
  default (PartitionName (T_of cache_type)) (explicit_name cache_type).

(** One call of the public interface, the accessors being those of the
    catalogue. *)
Inductive Catalogue_step : Impl → Impl → Prop :=
| cstep_accessor cache_type self p self' :
    File_cached_accessor cache_type self = (Ok p, self') → Catalogue_step self self'
| cstep_accessor_throws cache_type self e self' :
    File_cached_accessor cache_type self = (Throw e, self') → Catalogue_step self self'
| cstep_trait_declaration_attributes d self r self' :
    File_trait_declaration_attributes L NDEBUG AssociatedTrait_AttrIndex d self
    = (Ok r, self') → Catalogue_step self self'
| cstep_trait_deprecation_texts d self r self' :
    File_trait_deprecation_texts L NDEBUG AssociatedTrait_TextOffset d self
    = (Ok r, self') → Catalogue_step self self'
| cstep_trait_friendship_of_class d self r self' :
    File_trait_friendship_of_class L NDEBUG AssociatedTrait_Sequence d self
    = (Ok r, self') → Catalogue_step self self'.

Definition Catalogue_reachable (data : BlobView) (self : Impl) : Prop :=
  ∃ self0, fst (File_ctor L data) = Ok self0 ∧ rtc Catalogue_step self0 self.

(** A filled slot holds what its accessor would resolve now. *)
Definition cache_coherent (self : Impl) : Prop :=
  ∀ cache_type u,
    cached_partitions_ self !! FilePartitionCache.cache_index cache_type
    = Some (Some u) →
    outcome_of
      (get_partition L NDEBUG (T_of cache_type) (accessor_partition_name cache_type)
         self) (blob_ self)
    = Ok {| p_data := up_data u; p_size := up_size u |}.

(** What holds of every state of a file opened on [data] and used through
    the catalogue. *)
Definition Catalogue_inv (data : BlobView) (self : Impl) : Prop :=
  blob_ self = data
  ∧ length (cached_partitions_ self) = FilePartitionCache.Num
  ∧ cache_coherent self.

End Catalogue.

(** ** Test fixtures: a layout and blobs built field by field *)

Definition byte_of_Z (z : Z) : byte :=
  default x00 (Byte.of_N (Z.to_N (z mod 256))).

Definition le32 (n : Z) : list byte :=
  [byte_of_Z n; byte_of_Z (n / 256); byte_of_Z (n / 65536); byte_of_Z (n / 16777216)].

Fixpoint cstr (s : string) : list byte :=
  match s with
  | EmptyString => [x00]
  | String c s' => byte_of_ascii c :: cstr s'
  end.

(** The header as the producing compiler lays it out: a 32-byte checksum,
    four one-byte fields and the dialect, then the fields below, four bytes
    each; the bytes of a partition are its cardinality times its entry
    size. *)
Definition sample_layout : Layout :=
  {| sizeof_FileHeader := 72;
     offsetof_string_table_bytes := 40;
     offsetof_string_table_size := 44;
     offsetof_global_scope := 56;
     offsetof_toc := 60;
     offsetof_partition_count := 64;
     sizeof_PartitionSummary := 16;
     offsetof_name := 0;
     offsetof_offset := 4;
     offsetof_cardinality := 8;
     offsetof_entry_size := 12;
     PartitionSummary_size_bytes := λ d, ps_cardinality d * ps_entry_size d |}.

Definition sample_header (string_table_bytes string_table_size global_scope toc
    partition_count : Z) : list byte :=
  replicate 40 x00 ++ le32 string_table_bytes ++ le32 string_table_size
  ++ replicate 8 x00 ++ le32 global_scope ++ le32 toc ++ le32 partition_count
  ++ replicate 4 x00.

Definition sample_summary (name offset cardinality entry_size : Z) : list byte :=
  le32 name ++ le32 offset ++ le32 cardinality ++ le32 entry_size.

(** [AssociatedTrait<AttrIndex>] and [AssociatedTrait<TextOffset>]: two
    32-bit fields; [AssociatedTrait<Sequence>]: three. *)
Definition load_pair (p : Z) : Rd (Z * Z) :=
  let* decl := load_u32 p in
  let* trait := load_u32 (p + 4) in
  rd_ret (decl, trait).

Definition load_decl_sequence (p : Z) : Rd (Z * Sequence) :=
  let* decl := load_u32 p in
  let* start := load_u32 (p + 4) in
  let* cardinality := load_u32 (p + 8) in
  rd_ret (decl, {| seq_start := start; seq_cardinality := cardinality |}).

Definition sample_AttrIndex_trait : RecordType (Z * Z) :=
  {| sizeof_T := 8; PartitionName := "trait.attribute"; load_T := load_pair |}.

Definition sample_TextOffset_trait : RecordType (Z * Z) :=
  {| sizeof_T := 8; PartitionName := "trait.deprecated"; load_T := load_pair |}.

Definition sample_Sequence_trait : RecordType (Z * Sequence) :=
  {| sizeof_T := 12; PartitionName := "trait.friend"; load_T := load_decl_sequence |}.

(** S1: signature, header, no partition, no string. *)
Definition minimal_blob : BlobView :=
  {| blob_data := 4096;
     blob_bytes := CANONICAL_FILE_SIGNATURE ++ sample_header 76 0 0 76 0 |}.

(** S2: the same with byte 0 set to 0xFF. *)
Definition bad_signature_blob : BlobView :=
  {| blob_data := 4096;
     blob_bytes := [xff; x51; x45; x1a] ++ sample_header 76 0 0 76 0 |}.

(** S4 (with more records): [trait.attribute] holds (7, 101), (3, 55),
    (7, 103) and [.msvc.trait.decl-attrs] holds (7, 102), (7, 101). There is
    no [trait.deprecated]. *)
Definition attributes_blob : BlobView :=
  {| blob_data := 4096;
     blob_bytes :=
       CANONICAL_FILE_SIGNATURE
       ++ sample_header 76 40 0 156 2
       ++ ([x00] ++ cstr "trait.attribute" ++ cstr ".msvc.trait.decl-attrs")
       ++ (le32 7 ++ le32 101 ++ le32 3 ++ le32 55 ++ le32 7 ++ le32 103)
       ++ (le32 7 ++ le32 102 ++ le32 7 ++ le32 101)
       ++ (sample_summary 1 116 3 8 ++ sample_summary 17 140 2 8) |}.

(** The object the constructor builds from [attributes_blob]. *)
Definition attributes_file : Impl :=
  {| blob_ := attributes_blob;
     table_of_contents_ :=
       <["trait.attribute" := 4252]> (<[".msvc.trait.decl-attrs" := 4268]> ∅);
     trait_deprecation_texts_ := None;
     trait_declaration_attributes_ := None;
     trait_friendship_of_class_ := None;
     cached_partitions_ := replicate FilePartitionCache.Num None |}.

(** S4 as it is written: one record (7, 11) in [trait.attribute] and one
    record (7, 22) in [.msvc.trait.decl-attrs]. *)
Definition scenario_S4_blob : BlobView :=
  {| blob_data := 4096;
     blob_bytes :=
       CANONICAL_FILE_SIGNATURE
       ++ sample_header 76 40 0 132 2
       ++ ([x00] ++ cstr "trait.attribute" ++ cstr ".msvc.trait.decl-attrs")
       ++ (le32 7 ++ le32 11)
       ++ (le32 7 ++ le32 22)
       ++ (sample_summary 1 116 1 8 ++ sample_summary 17 124 1 8) |}.

(** S6: no partition; the string table holds "std", "core" and "part" at the
    offsets 1, 5 and 10. *)
Definition imports_blob : BlobView :=
  {| blob_data := 4096;
     blob_bytes :=
       CANONICAL_FILE_SIGNATURE
       ++ sample_header 76 15 0 91 0
       ++ ([x00] ++ cstr "std" ++ cstr "core" ++ cstr "part") |}.

(** Two descriptors under the one name "trait.attribute". *)
Definition duplicate_names_blob : BlobView :=
  {| blob_data := 4096;
     blob_bytes :=
       CANONICAL_FILE_SIGNATURE
       ++ sample_header 76 17 0 109 2
       ++ ([x00] ++ cstr "trait.attribute")
       ++ (le32 7 ++ le32 11)
       ++ (le32 7 ++ le32 22)
       ++ (sample_summary 1 93 1 8 ++ sample_summary 1 101 1 8) |}.

(** [trait.deprecated] holds (7, 20), (3, 21), (7, 22) and [trait.friend]
    holds (7, [1, 2)) and (7, [3, 4)); there is no attribute partition. *)
Definition deprecations_blob : BlobView :=
  {| blob_data := 4096;
     blob_bytes :=
       CANONICAL_FILE_SIGNATURE
       ++ sample_header 76 31 0 155 2
       ++ ([x00] ++ cstr "trait.deprecated" ++ cstr "trait.friend")
       ++ (le32 7 ++ le32 20 ++ le32 3 ++ le32 21 ++ le32 7 ++ le32 22)
       ++ (le32 7 ++ le32 1 ++ le32 2 ++ le32 7 ++ le32 3 ++ le32 4)
       ++ (sample_summary 1 107 3 8 ++ sample_summary 18 131 2 12) |}.

(** The object the constructor builds from [deprecations_blob]. *)
Definition deprecations_file : Impl :=
  {| blob_ := deprecations_blob;
     table_of_contents_ :=
       <["trait.deprecated" := 4251]> (<["trait.friend" := 4267]> ∅);
     trait_deprecation_texts_ := None;
     trait_declaration_attributes_ := None;
     trait_friendship_of_class_ := None;
     cached_partitions_ := replicate FilePartitionCache.Num None |}.

(** A record type of twelve bytes read against the eight-byte records of
    [trait.attribute]. *)
Definition wide_AttrIndex_trait : RecordType (Z * Z) :=
  {| sizeof_T := 12; PartitionName := "trait.attribute"; load_T := load_pair |}.

(** [attributes_blob] without its last byte. *)
Definition truncated_attributes_blob : BlobView :=
  {| blob_data := 4096; blob_bytes := take 187 (blob_bytes attributes_blob) |}.

(** * Properties *)

(** ** Running the reader monad *)

Lemma outcome_of_bind {A B} (m : Rd A) (k : A → Rd B) blob :
  outcome_of (rd_bind m k) blob
  = outcome_bind (outcome_of m blob) (λ a, outcome_of (k a) blob).
Proof.
  unfold outcome_of, rd_bind.
  destruct (m blob) as [[a| | |] t]; simpl; try reflexivity.
  destruct (k a blob); reflexivity.
Qed.

Lemma trace_of_bind_ok {A B} (m : Rd A) (k : A → Rd B) blob a :
  outcome_of m blob = Ok a →
  trace_of (rd_bind m k) blob = trace_of m blob ++ trace_of (k a) blob.
Proof.
  unfold outcome_of, trace_of, rd_bind.
  destruct (m blob) as [[a'| | |] t]; simpl; try discriminate.
  intros [= ->]. destruct (k a blob); reflexivity.
Qed.

Lemma outcome_of_ret {A} (a : A) blob : outcome_of (rd_ret a) blob = Ok a.
Proof. reflexivity. Qed.

Lemma outcome_of_blob blob : outcome_of rd_blob blob = Ok blob.
Proof. reflexivity. Qed.

Lemma run_pair {A} (m : Rd A) blob : m blob = (outcome_of m blob, trace_of m blob).
Proof. unfold outcome_of, trace_of. destruct (m blob); reflexivity. Qed.

Lemma outcome_bind_ok_inv {A B} (o : Outcome A) (k : A → Outcome B) b :
  outcome_bind o k = Ok b → ∃ a, o = Ok a ∧ k a = Ok b.
Proof. destruct o; simpl; try discriminate. eauto. Qed.

(** ** Loads *)

Lemma read_bytes_4_ok blob off bs :
  outcome_of (read_bytes off 4) blob = Ok bs →
  trace_of (read_bytes off 4) blob = ReadByte <$> offsets_from off 4.
Proof.
  unfold outcome_of, trace_of, read_bytes, offsets_from. simpl.
  unfold rd_bind, read_byte. simpl.
  repeat (case_decide; simpl; [|discriminate];
          match goal with
          | |- context [blob_bytes blob !! ?i] =>
              destruct (blob_bytes blob !! i); simpl; [|discriminate]
          end).
  reflexivity.
Qed.

Lemma read_u32_trace blob off v :
  outcome_of (read_u32 off) blob = Ok v →
  trace_of (read_u32 off) blob = ReadByte <$> offsets_from off 4.
Proof.
  unfold read_u32. intros H.
  rewrite outcome_of_bind in H. apply outcome_bind_ok_inv in H as (bs & Hbs & _).
  rewrite (trace_of_bind_ok _ _ _ _ Hbs).
  rewrite (read_bytes_4_ok _ _ _ Hbs). unfold trace_of. simpl.
  reflexivity.
Qed.

Lemma structure_signature_run blob :
  4 ≤ blob_size blob →
  structure_signature blob
  = (Ok (take 4 (blob_bytes blob)), ReadByte <$> [0; 1; 2; 3]).
Proof.
  destruct blob as [base bs]. unfold blob_size. simpl.
  destruct bs as [|a [|b [|c [|d rest]]]]; simpl; try lia.
  intros _. reflexivity.
Qed.

Section ReaderProperties.

Variable L : Layout.
Variable NDEBUG : bool.

(** ** The signature gate *)

(** C1. A blob whose first four bytes are not the canonical signature is
    rejected by the constructor with [invalid_argument("corrupted file
    signature")], and the only bytes of the blob loaded before that are the
    bytes 0 to 3. *)
Theorem open_rejects_bad_signature (data : BlobView) :
  4 ≤ blob_size data →
  take 4 (blob_bytes data) ≠ CANONICAL_FILE_SIGNATURE →
  fst (File_ctor L data) = Throw (invalid_argument "corrupted file signature")
  ∧ snd (File_ctor L data) = [ReadByte 0; ReadByte 1; ReadByte 2; ReadByte 3]
  ∧ ∀ e, e ∈ snd (File_ctor L data) → ∃ off, e = ReadByte off ∧ 0 ≤ off < 4.
Proof.
  intros Hlen Hsig.
  assert (Hrun : File_ctor L data
                 = (Throw (invalid_argument "corrupted file signature"),
                    [ReadByte 0; ReadByte 1; ReadByte 2; ReadByte 3])).
  { unfold File_ctor, Impl_ctor, rd_bind.
    rewrite (structure_signature_run data Hlen).
    destruct (decide (take 4 (blob_bytes data) ≠ CANONICAL_FILE_SIGNATURE))
      as [_|Hn]; [reflexivity | contradiction]. }
  rewrite Hrun. simpl. split; [reflexivity|]. split; [reflexivity|].
  intros e He.
  repeat (apply elem_of_cons in He as [->|He]; [eexists; split; [reflexivity|lia]|]).
  by apply elem_of_nil in He.
Qed.

(** A blob too short to hold a signature: the comparison leaves the blob. *)
Lemma open_short_blob (data : BlobView) :
  blob_size data < 4 → fst (File_ctor L data) = Undefined.
Proof.
  destruct data as [base bs]. unfold blob_size. simpl.
  destruct bs as [|a [|b [|c [|d rest]]]]; simpl; try lia; reflexivity.
Qed.

(** ** Pointers and strings *)

Lemma outcome_of_load_u32 blob p :
  outcome_of (load_u32 p) blob = outcome_of (read_u32 (p - blob_data blob)) blob.
Proof. unfold load_u32. rewrite outcome_of_bind. reflexivity. Qed.

Lemma outcome_of_get_pointer blob offset :
  outcome_of (get_pointer offset) blob = Ok (blob_data blob + offset).
Proof. reflexivity. Qed.

Lemma trace_of_get_pointer blob offset : trace_of (get_pointer offset) blob = [].
Proof. reflexivity. Qed.

(** C10. [get_string] returns the address [blob.base +
    header.string_table_bytes + t] for every text offset [t] whatever its
    value; the only bytes it loads are the four bytes of the header field
    [string_table_bytes], so neither the size of the string table nor any
    byte of the string is looked at. *)
Theorem get_string_is_unchecked_pointer (blob : BlobView) (t string_table_bytes : Z) :
  outcome_of (header_field (offsetof_string_table_bytes L)) blob = Ok string_table_bytes →
  get_string L t blob
  = (Ok (blob_data blob + string_table_bytes + t),
     ReadByte <$> offsets_from (sizeof_FileSignature + offsetof_string_table_bytes L) 4).
Proof.
  intros H. rewrite (run_pair (get_string L t) blob). f_equal.
  - unfold get_string. rewrite outcome_of_bind, H. reflexivity.
  - unfold get_string. rewrite (trace_of_bind_ok _ _ _ _ H).
    unfold header_field in *. rewrite (read_u32_trace _ _ _ H).
    apply app_nil_r.
Qed.

(** ** The partition resolver *)

Lemma load_PartitionSummary_fields blob partition d :
  outcome_of (load_PartitionSummary L partition) blob = Ok d →
  outcome_of (load_u32 (partition + offsetof_name L)) blob = Ok (ps_name d)
  ∧ outcome_of (load_u32 (partition + offsetof_offset L)) blob = Ok (ps_offset d)
  ∧ outcome_of (load_u32 (partition + offsetof_cardinality L)) blob
    = Ok (ps_cardinality d)
  ∧ outcome_of (load_u32 (partition + offsetof_entry_size L)) blob
    = Ok (ps_entry_size d).
Proof.
  unfold load_PartitionSummary. intros H.
  rewrite outcome_of_bind in H. apply outcome_bind_ok_inv in H as (n & Hn & H).
  rewrite outcome_of_bind in H. apply outcome_bind_ok_inv in H as (o & Ho & H).
  rewrite outcome_of_bind in H. apply outcome_bind_ok_inv in H as (c & Hc & H).
  rewrite outcome_of_bind in H. apply outcome_bind_ok_inv in H as (e & He & H).
  injection H as <-. simpl. auto.
Qed.

Lemma get_partition_at_outcome {V} (T : RecordType V) blob partition d :
  outcome_of (load_PartitionSummary L partition) blob = Ok d →
  outcome_of (get_partition_at L NDEBUG T partition) blob
  = if NDEBUG then Ok (resolved blob d)
    else if decide (ps_entry_size d = sizeof_T T) then Ok (resolved blob d)
         else AssertFailed.
Proof.
  intros H. apply load_PartitionSummary_fields in H as (_ & Ho & Hc & He).
  unfold get_partition_at. rewrite outcome_of_bind.
  destruct NDEBUG; simpl.
  - rewrite outcome_of_bind, Ho. simpl.
    rewrite outcome_of_bind, outcome_of_get_pointer. simpl.
    rewrite outcome_of_bind, Hc. reflexivity.
  - rewrite outcome_of_bind, He. simpl.
    destruct (decide (ps_entry_size d = sizeof_T T)); simpl; [|reflexivity].
    rewrite outcome_of_bind, Ho. simpl.
    rewrite outcome_of_bind, outcome_of_get_pointer. simpl.
    rewrite outcome_of_bind, Hc. reflexivity.
Qed.

(** C3. For a descriptor found in the table of contents under the requested
    name, [get_partition<T, I>] returns the partition whose data pointer is
    [blob.base + descriptor.offset] and whose length is
    [descriptor.cardinality]; the check [entry_size == sizeof(T)] is an
    [assert]: it aborts the call in a debug build when the sizes differ and
    is absent under [NDEBUG]. *)
Theorem get_partition_contract {V} (T : RecordType V) (self : Impl) (name : string)
    (partition : Z) (d : PartitionSummary) :
  table_of_contents_ self !! name = Some partition →
  outcome_of (load_PartitionSummary L partition) (blob_ self) = Ok d →
  outcome_of (get_partition L NDEBUG T name self) (blob_ self)
  = if NDEBUG || bool_decide (ps_entry_size d = sizeof_T T)
    then Ok {| p_data := blob_data (blob_ self) + ps_offset d;
               p_size := ps_cardinality d |}
    else AssertFailed.
Proof.
  intros Hname Hd. unfold get_partition. rewrite Hname.
  rewrite (get_partition_at_outcome T _ _ _ Hd).
  destruct NDEBUG; simpl; [reflexivity|].
  destruct (decide (ps_entry_size d = sizeof_T T)) as [e|n].
  - by rewrite (bool_decide_eq_true_2 _ e).
  - by rewrite (bool_decide_eq_false_2 _ n).
Qed.

(** C7. For a name that the table of contents does not list,
    [try_get_partition] returns [nullopt] and [get_partition] throws (the
    [std::out_of_range] of [unordered_map::at]); for a name that is listed
    both resolve the same descriptor and end the same way, [try_get_partition]
    wrapping in an optional the partition [get_partition] returns. *)
Theorem try_get_versus_get {V} (T : RecordType V) (self : Impl) (name : string) :
  (table_of_contents_ self !! name = None →
     try_get_partition L NDEBUG T name self (blob_ self) = (Ok None, [])
     ∧ get_partition L NDEBUG T name self (blob_ self) = (Throw out_of_range, []))
  ∧ (∀ partition d,
       table_of_contents_ self !! name = Some partition →
       outcome_of (load_PartitionSummary L partition) (blob_ self) = Ok d →
       NDEBUG || bool_decide (ps_entry_size d = sizeof_T T) = true →
       outcome_of (get_partition L NDEBUG T name self) (blob_ self)
       = Ok (resolved (blob_ self) d)
       ∧ outcome_of (try_get_partition L NDEBUG T name self) (blob_ self)
         = Ok (Some (resolved (blob_ self) d)))
  ∧ (is_Some (table_of_contents_ self !! name) →
       outcome_of (try_get_partition L NDEBUG T name self) (blob_ self)
       = outcome_map Some (outcome_of (get_partition L NDEBUG T name self) (blob_ self))).
Proof.
  split; [|split].
  - intros Hname. unfold try_get_partition, get_partition. rewrite Hname.
    split; reflexivity.
  - intros partition d Hname Hd Hsize.
    unfold try_get_partition, get_partition. rewrite Hname.
    rewrite outcome_of_bind, (get_partition_at_outcome T _ _ _ Hd).
    destruct NDEBUG; simpl in *; [split; reflexivity|].
    apply bool_decide_eq_true_1 in Hsize.
    destruct (decide (ps_entry_size d = sizeof_T T)); [|contradiction].
    split; reflexivity.
  - intros [partition Hname].
    unfold try_get_partition, get_partition. rewrite Hname.
    rewrite outcome_of_bind.
    destruct (outcome_of (get_partition_at L NDEBUG T partition) (blob_ self));
      reflexivity.
Qed.

(** ** The caches of the partition accessors *)

Lemma File_accessors_in_catalogue {V} (T : RecordType V) :
  File_scope_descriptors L NDEBUG T = call_accessor L NDEBUG (Uncached T "scope.desc")
  ∧ File_declarations L NDEBUG T
    = call_accessor L NDEBUG (CanonicalName T FilePartitionCache.Declarations)
  ∧ File_type_heap L NDEBUG T
    = call_accessor L NDEBUG (ExplicitName T "heap.type" FilePartitionCache.TypeHeap)
  ∧ File_imported_modules L NDEBUG T
    = call_accessor L NDEBUG
        (ExplicitName T "module.imported" FilePartitionCache.ImportedModules).
Proof. repeat split; reflexivity. Qed.

Lemma get_and_cache_partition_twice {V} (T : RecordType V) name slot self p self' :
  get_and_cache_partition L NDEBUG T name slot self = (Ok p, self') →
  get_and_cache_partition L NDEBUG T name slot self' = (Ok p, self').
Proof.
  unfold get_and_cache_partition.
  destruct (cached_partitions_ self !! FilePartitionCache.cache_index slot)
    as [[u|]|] eqn:Hslot.
  - intros [= <- <-]. rewrite Hslot. reflexivity.
  - destruct (fst (get_partition L NDEBUG T name self (blob_ self)))
      as [result| | |]; try discriminate.
    intros [= <- <-]. simpl.
    rewrite list_lookup_insert_eq by (eapply lookup_lt_Some; eauto).
    destruct result; reflexivity.
  - discriminate.
Qed.

(** C4. Calling a partition accessor twice in a row gives the same pointer
    and length: if a call succeeds, the next call of the same accessor (a
    cache hit, for the cached ones) returns an equal partition and leaves the
    object as it is. The same holds for [get_partition_with_cache] of the
    variant with one optional member per accessor. *)
Theorem accessor_cache_idempotent {V} :
  (∀ (P : @Accessor V) (self self' : Impl) (p : Partition),
     call_accessor L NDEBUG P self = (Ok p, self') →
     call_accessor L NDEBUG P self' = (Ok p, self'))
  ∧ (∀ (T : RecordType V) (name : string) (impl_ : Impl)
       (cache cache' : option Partition) (p : Partition),
       get_partition_with_cache L NDEBUG T cache name impl_ = (Ok p, cache') →
       get_partition_with_cache L NDEBUG T cache' name impl_ = (Ok p, cache')).
Proof.
  split.
  - intros [T slot|T name slot|T] self self' p; simpl.
    + apply get_and_cache_partition_twice.
    + apply get_and_cache_partition_twice.
    + unfold st_const. intros [= H <-].
      rewrite H. reflexivity.
  - intros T name impl_ cache cache' p. unfold get_partition_with_cache.
    destruct cache as [q|].
    + intros [= <- <-]. reflexivity.
    + destruct (fst (get_partition L NDEBUG T name impl_ (blob_ impl_)));
        try discriminate.
      intros [= <- <-]. reflexivity.
Qed.

(** ** The size check *)

Lemma wrap_size_t_add_l a b : wrap_size_t (wrap_size_t a + b) = wrap_size_t (a + b).
Proof. unfold wrap_size_t. apply Zplus_mod_idemp_l. Qed.

Lemma wrap_size_t_add_r a b : wrap_size_t (a + wrap_size_t b) = wrap_size_t (a + b).
Proof. unfold wrap_size_t. apply Zplus_mod_idemp_r. Qed.

Lemma wrap_size_t_small a : 0 ≤ a < 2 ^ size_t_bits → wrap_size_t a = a.
Proof. unfold wrap_size_t. apply Z.mod_small. Qed.

Lemma rd_mapM_cons_inv {A B} (f : A → Rd B) x l blob ys :
  outcome_of (rd_mapM f (x :: l)) blob = Ok ys →
  ∃ y ys', outcome_of (f x) blob = Ok y
           ∧ outcome_of (rd_mapM f l) blob = Ok ys' ∧ ys = y :: ys'.
Proof.
  simpl. intros H.
  rewrite outcome_of_bind in H. apply outcome_bind_ok_inv in H as (y & Hy & H).
  rewrite outcome_of_bind in H. apply outcome_bind_ok_inv in H as (ys' & Hys & H).
  injection H as <-. eauto.
Qed.

Lemma rd_mapM_nil_inv {A B} (f : A → Rd B) blob ys :
  outcome_of (rd_mapM f []) blob = Ok ys → ys = [].
Proof. by intros [= <-]. Qed.

Lemma outcome_of_table_of_contents blob toc partition_count :
  outcome_of (header_field (offsetof_toc L)) blob = Ok toc →
  outcome_of (header_field (offsetof_partition_count L)) blob = Ok partition_count →
  outcome_of (table_of_contents L) blob
  = Ok {| toc_data := blob_data blob + toc; toc_count := partition_count |}.
Proof.
  intros Ht Hc. unfold table_of_contents.
  rewrite outcome_of_bind, Ht. simpl.
  rewrite outcome_of_bind, outcome_of_get_pointer. simpl.
  rewrite outcome_of_bind, Hc. reflexivity.
Qed.

Lemma outcome_of_partition_size_bytes blob partition d :
  outcome_of (load_PartitionSummary L partition) blob = Ok d →
  outcome_of (partition_size_bytes L partition) blob
  = Ok (PartitionSummary_size_bytes L d).
Proof.
  intros H. unfold partition_size_bytes. rewrite outcome_of_bind, H. reflexivity.
Qed.

Lemma calc_size_loop blob partitions ds acc :
  outcome_of (rd_mapM (load_PartitionSummary L) partitions) blob = Ok ds →
  outcome_of
    (rd_foldM
       (λ result partition,
          let* n := partition_size_bytes L partition in
          rd_ret (wrap_size_t (result + n)))
       (wrap_size_t acc) partitions) blob
  = Ok (wrap_size_t
          (acc + foldr (λ d s, PartitionSummary_size_bytes L d + s) 0 ds)).
Proof.
  revert ds acc. induction partitions as [|partition partitions IH]; intros ds acc H.
  - apply rd_mapM_nil_inv in H as ->. simpl. by rewrite Z.add_0_r.
  - apply rd_mapM_cons_inv in H as (d & ds' & Hd & Hds & ->). simpl.
    rewrite outcome_of_bind, outcome_of_bind.
    rewrite (outcome_of_partition_size_bytes _ _ _ Hd). simpl.
    rewrite wrap_size_t_add_l.
    rewrite (IH ds' _ Hds). f_equal. f_equal. lia.
Qed.

Lemma outcome_of_calc_size blob string_table_size toc partition_count ds :
  outcome_of (header_field (offsetof_string_table_size L)) blob = Ok string_table_size →
  outcome_of (header_field (offsetof_toc L)) blob = Ok toc →
  outcome_of (header_field (offsetof_partition_count L)) blob = Ok partition_count →
  outcome_of
    (rd_mapM (load_PartitionSummary L)
       (toc_elements L {| toc_data := blob_data blob + toc;
                          toc_count := partition_count |})) blob = Ok ds →
  outcome_of (calc_size L) blob
  = Ok (wrap_size_t (expected_size L string_table_size partition_count ds)).
Proof.
  intros Hs Ht Hc Hds. unfold calc_size.
  rewrite outcome_of_bind, Hs. simpl.
  rewrite outcome_of_bind, (outcome_of_table_of_contents _ _ _ Ht Hc). simpl.
  unfold toc_size_bytes, raw_count. simpl.
  rewrite wrap_size_t_add_l, wrap_size_t_add_r.
  rewrite (calc_size_loop _ _ _ _ Hds). unfold expected_size, sizeof_Structure.
  reflexivity.
Qed.

Lemma never_throws_ret {A} (a : A) : never_throws (rd_ret a).
Proof. intros blob. exact I. Qed.

Lemma never_throws_blob : never_throws rd_blob.
Proof. intros blob. exact I. Qed.

Lemma never_throws_bind {A B} (m : Rd A) (k : A → Rd B) :
  never_throws m → (∀ a, never_throws (k a)) → never_throws (rd_bind m k).
Proof.
  intros Hm Hk blob. rewrite outcome_of_bind.
  specialize (Hm blob). destruct (outcome_of m blob); simpl; try done.
  apply Hk.
Qed.

Lemma never_throws_read_byte off : never_throws (read_byte off).
Proof.
  intros blob. unfold outcome_of, read_byte. simpl.
  case_decide; [|done]. by destruct (blob_bytes blob !! Z.to_nat off).
Qed.

Lemma never_throws_mapM {A B} (f : A → Rd B) l :
  (∀ x, never_throws (f x)) → never_throws (rd_mapM f l).
Proof.
  intros Hf. induction l as [|x l IH]; simpl.
  - apply never_throws_ret.
  - apply never_throws_bind; [apply Hf|]. intros y.
    apply never_throws_bind; [apply IH|]. intros ys. apply never_throws_ret.
Qed.

Lemma never_throws_foldM {A B} (f : A → B → Rd A) l a :
  (∀ a x, never_throws (f a x)) → never_throws (rd_foldM f a l).
Proof.
  intros Hf. revert a. induction l as [|x l IH]; intros a; simpl.
  - apply never_throws_ret.
  - apply never_throws_bind; [apply Hf|]. intros a'. apply IH.
Qed.

Lemma never_throws_get_pointer offset : never_throws (get_pointer offset).
Proof. intros blob. exact I. Qed.

Lemma never_throws_cstring_from bytes off :
  match fst (cstring_from bytes off) with
  | Throw _ | AssertFailed => False
  | Ok _ | Undefined => True
  end.
Proof.
  revert off. induction bytes as [|c rest IH]; intros off; simpl; [done|].
  case_decide; [done|]. specialize (IH (off + 1)).
  destruct (cstring_from rest (off + 1)) as [[s| | |] t]; simpl in *; done.
Qed.

Lemma never_throws_read_cstring off : never_throws (read_cstring off).
Proof.
  intros blob. unfold outcome_of, read_cstring.
  case_decide; [apply never_throws_cstring_from|done].
Qed.

Create HintDb loads discriminated.

#[local] Hint Resolve never_throws_ret never_throws_blob never_throws_bind
  never_throws_read_byte never_throws_mapM never_throws_foldM
  never_throws_get_pointer never_throws_read_cstring : loads.

(** Loads, and what is built from loads alone, never throw. *)
Ltac never_throws :=
  repeat first
    [ progress intros
    | apply never_throws_bind
    | solve [auto with loads] ].

Lemma never_throws_read_u32 off : never_throws (read_u32 off).
Proof. unfold read_u32, read_bytes. never_throws. Qed.

#[local] Hint Resolve never_throws_read_u32 : loads.

Lemma never_throws_load_u32 p : never_throws (load_u32 p).
Proof. unfold load_u32. never_throws. Qed.

Lemma never_throws_load_cstring p : never_throws (load_cstring p).
Proof. unfold load_cstring. never_throws. Qed.

#[local] Hint Resolve never_throws_load_u32 never_throws_load_cstring : loads.

Lemma never_throws_get_string index : never_throws (get_string L index).
Proof. unfold get_string, header_field. never_throws. Qed.

Lemma never_throws_table_of_contents : never_throws (table_of_contents L).
Proof. unfold table_of_contents, header_field. never_throws. Qed.

#[local] Hint Resolve never_throws_get_string : loads.

Lemma never_throws_partition_name partition : never_throws (partition_name L partition).
Proof. unfold partition_name. never_throws. Qed.

#[local] Hint Resolve never_throws_partition_name : loads.

Lemma never_throws_toc_insert m partition : never_throws (toc_insert L m partition).
Proof. unfold toc_insert. never_throws. Qed.

(** What the constructor does once the signature and the size are accepted. *)
Lemma outcome_of_Impl_ctor data size :
  take 4 (blob_bytes data) = CANONICAL_FILE_SIGNATURE →
  outcome_of (calc_size L) data = Ok size →
  outcome_of (Impl_ctor L) data
  = if decide (size ≠ blob_size data)
    then Throw (runtime_error "corrupted file")
    else
      outcome_bind (outcome_of (table_of_contents L) data) (λ toc,
      outcome_bind (outcome_of (rd_foldM (toc_insert L) ∅ (toc_elements L toc)) data)
        (λ m,
           Ok {| blob_ := data;
                 table_of_contents_ := m;
                 trait_deprecation_texts_ := None;
                 trait_declaration_attributes_ := None;
                 trait_friendship_of_class_ := None;
                 cached_partitions_ := replicate FilePartitionCache.Num None |})).
Proof.
  intros Hsig Hsize.
  assert (Hlen : 4 ≤ blob_size data).
  { unfold blob_size. pose proof (f_equal length Hsig) as Hl.
    rewrite length_take in Hl. unfold CANONICAL_FILE_SIGNATURE in Hl.
    cbn [length] in Hl. lia. }
  unfold Impl_ctor. rewrite outcome_of_bind.
  unfold outcome_of at 1. rewrite (structure_signature_run data Hlen). simpl.
  rewrite Hsig.
  destruct (decide (CANONICAL_FILE_SIGNATURE ≠ CANONICAL_FILE_SIGNATURE)); [done|].
  rewrite outcome_of_bind, Hsize. simpl.
  rewrite outcome_of_bind, outcome_of_blob. simpl.
  destruct (decide (size ≠ blob_size data)); [reflexivity|].
  rewrite outcome_of_bind.
  destruct (outcome_of (table_of_contents L) data) as [toc| | |]; simpl; try done.
  rewrite outcome_of_bind. reflexivity.
Qed.

(** C2, amended. For a blob that passes the signature check and whose
    header fields [string_table_size], [toc] and [partition_count] and whose
    announced descriptors of the table of contents all lie inside the blob,
    [calc_size] is
    [sizeof(signature) + sizeof(header) + string_table_size + toc.size_bytes]
    plus the sum of the [size_bytes] of the partitions of the table of
    contents, computed in [size_t] (so modulo 2^64, and exactly when the sum
    fits), and the constructor throws [runtime_error("corrupted file")] if
    and only if that computed size differs from the length of the blob.
    The reader checks no bound anywhere: on a blob that places one of these
    fields outside itself the walk of [calc_size] leaves the blob before
    any length is compared. *)
Theorem open_size_check (data : BlobView) (string_table_size toc partition_count : Z)
    (ds : list PartitionSummary) :
  take 4 (blob_bytes data) = CANONICAL_FILE_SIGNATURE →
  outcome_of (header_field (offsetof_string_table_size L)) data = Ok string_table_size →
  outcome_of (header_field (offsetof_toc L)) data = Ok toc →
  outcome_of (header_field (offsetof_partition_count L)) data = Ok partition_count →
  outcome_of
    (rd_mapM (load_PartitionSummary L)
       (toc_elements L {| toc_data := blob_data data + toc;
                          toc_count := partition_count |})) data = Ok ds →
  let expected := expected_size L string_table_size partition_count ds in
  outcome_of (calc_size L) data = Ok (wrap_size_t expected)
  ∧ (0 ≤ expected < 2 ^ size_t_bits → outcome_of (calc_size L) data = Ok expected)
  ∧ (fst (File_ctor L data) = Throw (runtime_error "corrupted file")
     ↔ wrap_size_t expected ≠ blob_size data).
Proof.
  intros Hsig Hs Ht Hc Hds expected.
  pose proof (outcome_of_calc_size _ _ _ _ _ Hs Ht Hc Hds) as Hcalc.
  fold expected in Hcalc.
  split; [exact Hcalc|]. split.
  - intros Hfit. by rewrite Hcalc, wrap_size_t_small.
  - change (fst (File_ctor L data)) with (outcome_of (Impl_ctor L) data).
    rewrite (outcome_of_Impl_ctor _ _ Hsig Hcalc).
    destruct (decide (wrap_size_t expected ≠ blob_size data)) as [Hne|He].
    + split; [intros _; exact Hne | reflexivity].
    + split; [|intros Hne; contradiction].
      intros Hthrow. exfalso.
      pose proof (never_throws_table_of_contents data) as Hn1.
      destruct (outcome_of (table_of_contents L) data) as [t| | |];
        simpl in Hthrow; try done.
      pose proof (never_throws_foldM (toc_insert L) (toc_elements L t) ∅
                    never_throws_toc_insert data) as Hn2.
      destruct (outcome_of (rd_foldM (toc_insert L) ∅ (toc_elements L t)) data);
        simpl in Hthrow; done.
Qed.

(** ** The name map of the table of contents *)

Lemma rd_mapM_length {A B} (f : A → Rd B) l blob ys :
  outcome_of (rd_mapM f l) blob = Ok ys → length ys = length l.
Proof.
  revert ys. induction l as [|x l IH]; intros ys H.
  - by apply rd_mapM_nil_inv in H as ->.
  - apply rd_mapM_cons_inv in H as (y & ys' & _ & Hys & ->).
    simpl. f_equal. by apply IH.
Qed.

(** A run of [emplace] keeps, for every key, the first value offered. *)
Lemma emplace_foldl {V} (l : list (string * V)) (m : gmap string V) :
  foldl (λ m kv, emplace m kv.1 kv.2) m l = m ∪ list_to_map l.
Proof.
  revert m. induction l as [|[k v] l IH]; intros m; simpl.
  - by rewrite (right_id_L ∅ (∪)).
  - rewrite IH. unfold emplace. apply map_eq. intros i.
    destruct (m !! k) as [w|] eqn:Hk.
    + rewrite !lookup_union. destruct (decide (i = k)) as [->|Hne].
      * rewrite Hk, lookup_insert_eq.
        destruct (list_to_map l !! k); reflexivity.
      * by rewrite lookup_insert_ne.
    + rewrite !lookup_union. destruct (decide (i = k)) as [->|Hne].
      * rewrite Hk, !lookup_insert_eq.
        destruct (list_to_map l !! k); reflexivity.
      * by rewrite !lookup_insert_ne.
Qed.

Lemma toc_insert_loop blob partitions m m' :
  outcome_of (rd_foldM (toc_insert L) m partitions) blob = Ok m' →
  ∃ names,
    outcome_of (rd_mapM (partition_name L) partitions) blob = Ok names
    ∧ m' = foldl (λ m kv, emplace m kv.1 kv.2) m (zip names partitions).
Proof.
  revert m. induction partitions as [|partition partitions IH]; intros m H.
  - injection H as <-. exists []. split; reflexivity.
  - simpl in H. rewrite outcome_of_bind in H.
    apply outcome_bind_ok_inv in H as (m1 & Hm1 & H).
    unfold toc_insert in Hm1. rewrite outcome_of_bind in Hm1.
    apply outcome_bind_ok_inv in Hm1 as (key & Hkey & Hm1).
    injection Hm1 as <-.
    apply IH in H as (names & Hnames & ->).
    exists (key :: names). split; [|reflexivity].
    simpl. rewrite outcome_of_bind, Hkey. simpl.
    rewrite outcome_of_bind, Hnames. reflexivity.
Qed.

(** What a successful construction has established. *)
Lemma Impl_ctor_ok_inv data self :
  outcome_of (Impl_ctor L) data = Ok self →
  ∃ toc m,
    outcome_of (calc_size L) data = Ok (blob_size data)
    ∧ outcome_of (table_of_contents L) data = Ok toc
    ∧ outcome_of (rd_foldM (toc_insert L) ∅ (toc_elements L toc)) data = Ok m
    ∧ self = {| blob_ := data;
                table_of_contents_ := m;
                trait_deprecation_texts_ := None;
                trait_declaration_attributes_ := None;
                trait_friendship_of_class_ := None;
                cached_partitions_ := replicate FilePartitionCache.Num None |}.
Proof.
  unfold Impl_ctor. intros H.
  rewrite outcome_of_bind in H. apply outcome_bind_ok_inv in H as (sig & _ & H).
  destruct (decide (sig ≠ CANONICAL_FILE_SIGNATURE)); [discriminate|].
  rewrite outcome_of_bind in H. apply outcome_bind_ok_inv in H as (size & Hsize & H).
  rewrite outcome_of_bind, outcome_of_blob in H. simpl in H.
  destruct (decide (size ≠ blob_size data)) as [|Heq]; [discriminate|].
  apply dec_stable in Heq. subst size.
  rewrite outcome_of_bind in H. apply outcome_bind_ok_inv in H as (toc & Htoc & H).
  rewrite outcome_of_bind in H. apply outcome_bind_ok_inv in H as (m & Hm & H).
  injection H as <-. exists toc, m. auto.
Qed.

(** C8. After a successful construction the name map is keyed by the
    resolved names of the descriptors of the table of contents and holds no
    name twice ([emplace] keeps the first descriptor of a name); when the
    names of the file are unique, as the format requires, the map has exactly
    one entry per descriptor, under that descriptor's name and pointing to
    it. *)
Theorem toc_name_map (data : BlobView) (self : Impl) :
  fst (File_ctor L data) = Ok self →
  ∃ toc names,
    outcome_of (table_of_contents L) data = Ok toc
    ∧ outcome_of (rd_mapM (partition_name L) (toc_elements L toc)) data = Ok names
    ∧ table_of_contents_ self = list_to_map (zip names (toc_elements L toc))
    ∧ (∀ key, is_Some (table_of_contents_ self !! key) ↔ key ∈ names)
    ∧ (NoDup names →
       size (table_of_contents_ self) = Z.to_nat (toc_count toc)
       ∧ ∀ (i : nat) (partition : Z) (name : string),
           toc_elements L toc !! i = Some partition →
           names !! i = Some name →
           table_of_contents_ self !! name = Some partition).
Proof.
  intros H. apply Impl_ctor_ok_inv in H as (toc & m & _ & Htoc & Hm & ->).
  apply toc_insert_loop in Hm as (names & Hnames & ->).
  exists toc, names. simpl.
  pose proof (rd_mapM_length _ _ _ _ Hnames) as Hlen.
  assert (Hfst : (zip names (toc_elements L toc)).*1 = names)
    by (apply fst_zip; lia).
  rewrite emplace_foldl, (left_id_L ∅ (∪)).
  split; [exact Htoc|]. split; [exact Hnames|]. split; [reflexivity|]. split.
  - intros key. rewrite <- not_eq_None_Some.
    rewrite <- (not_elem_of_list_to_map (M := gmap string)), Hfst.
    split; [apply dec_stable | auto].
  - intros Hnodup. split.
    + rewrite map_size_list_to_map by (by rewrite Hfst).
      rewrite length_zip, Hlen, Nat.min_id.
      unfold toc_elements, span_elements. by rewrite length_fmap, length_seq.
    + intros i partition name Hp Hn.
      apply elem_of_list_to_map_1; [by rewrite Hfst|].
      eapply (elem_of_lookup_zip_with_2 pair); eauto.
Qed.

(** ** Trait maps *)

Variable AssociatedTrait_AttrIndex : RecordType (Z * Z).
Variable AssociatedTrait_TextOffset : RecordType (Z * Z).
Variable AssociatedTrait_Sequence : RecordType (Z * Sequence).

Lemma st_for_cons {B} (x : B) l (body : B → St ()) self :
  st_for (x :: l) body self
  = match body x self with
    | (Ok _, self') => st_for l body self'
    | (Throw e, self') => (Throw e, self')
    | (AssertFailed, self') => (AssertFailed, self')
    | (Undefined, self') => (Undefined, self')
    end.
Proof. reflexivity. Qed.

Lemma st_bind_const {A B} (m : Impl → Rd A) (k : A → St B) self :
  st_bind (st_const m) k self
  = match outcome_of (m self) (blob_ self) with
    | Ok a => k a self
    | Throw e => (Throw e, self)
    | AssertFailed => (AssertFailed, self)
    | Undefined => (Undefined, self)
    end.
Proof.
  unfold st_bind, st_const, outcome_of.
  destruct (m self (blob_ self)).1; reflexivity.
Qed.

Lemma st_for_loads {V} (T : RecordType V) (body : V → St ()) addrs xs self :
  (∀ x s, blob_ (body x s).2 = blob_ s) →
  outcome_of (rd_mapM (load_T T) addrs) (blob_ self) = Ok xs →
  st_for addrs (λ addr, st_bind (st_const (λ _, load_T T addr)) body) self
  = st_for xs body self.
Proof.
  intros Hbody. revert xs self.
  induction addrs as [|addr addrs IH]; intros xs self H.
  - apply rd_mapM_nil_inv in H as ->. reflexivity.
  - apply rd_mapM_cons_inv in H as (x & xs' & Hx & Hxs & ->).
    rewrite !st_for_cons, st_bind_const, Hx.
    pose proof (Hbody x self) as Hb.
    destruct (body x self) as [[[]| | |] s1]; try reflexivity.
    simpl in Hb. apply IH. by rewrite Hb.
Qed.

Lemma for_each_records {V} (T : RecordType V) p (body : V → St ()) xs self :
  (∀ x s, blob_ (body x s).2 = blob_ s) →
  outcome_of (rd_mapM (load_T T) (partition_elements T p)) (blob_ self) = Ok xs →
  for_each T p body self = st_for xs body self.
Proof. apply st_for_loads. Qed.

Lemma partition_records_inv {V} (T : RecordType V) name self xs :
  outcome_of (partition_records L NDEBUG T name self) (blob_ self) = Ok xs →
  (outcome_of (try_get_partition L NDEBUG T name self) (blob_ self) = Ok None
   ∧ xs = [])
  ∨ ∃ p, outcome_of (try_get_partition L NDEBUG T name self) (blob_ self) = Ok (Some p)
         ∧ outcome_of (rd_mapM (load_T T) (partition_elements T p)) (blob_ self) = Ok xs.
Proof.
  unfold partition_records. rewrite outcome_of_bind. intros H.
  apply outcome_bind_ok_inv in H as ([p|] & Hp & H).
  - right. eauto.
  - left. injection H as <-. auto.
Qed.

Lemma set_trait_declaration_attributes_id self m :
  trait_declaration_attributes_ self = Some m →
  set_trait_declaration_attributes (Some m) self = self.
Proof. destruct self. simpl. by intros ->. Qed.

Lemma set_trait_deprecation_texts_id self m :
  trait_deprecation_texts_ self = Some m →
  set_trait_deprecation_texts (Some m) self = self.
Proof. destruct self. simpl. by intros ->. Qed.

Lemma st_for_push_back xs self m :
  trait_declaration_attributes_ self = Some m →
  st_for xs (λ attribute, push_back_attribute attribute.1 attribute.2) self
  = (Ok (), set_trait_declaration_attributes (Some (foldl push_back m xs)) self).
Proof.
  revert self m. induction xs as [|x xs IH]; intros self m H.
  - simpl. by rewrite set_trait_declaration_attributes_id.
  - rewrite st_for_cons. unfold push_back_attribute at 1. rewrite H.
    erewrite IH by reflexivity. reflexivity.
Qed.

Lemma st_for_assign xs self m :
  trait_deprecation_texts_ self = Some m →
  st_for xs (λ deprecation, assign_deprecation_text deprecation.1 deprecation.2) self
  = (Ok (), set_trait_deprecation_texts (Some (foldl assign m xs)) self).
Proof.
  revert self m. induction xs as [|x xs IH]; intros self m H.
  - simpl. by rewrite set_trait_deprecation_texts_id.
  - rewrite st_for_cons. unfold assign_deprecation_text at 1. rewrite H.
    erewrite IH by reflexivity. reflexivity.
Qed.

Lemma fill_decl_attributes_run name self xs m :
  trait_declaration_attributes_ self = Some m →
  outcome_of (partition_records L NDEBUG AssociatedTrait_AttrIndex name self)
    (blob_ self) = Ok xs →
  fill_decl_attributes L NDEBUG AssociatedTrait_AttrIndex name self
  = (Ok (), set_trait_declaration_attributes (Some (foldl push_back m xs)) self).
Proof.
  intros Hm Hxs. unfold fill_decl_attributes. rewrite st_bind_const.
  apply partition_records_inv in Hxs as [[Hp ->]|(p & Hp & Hxs)]; rewrite Hp.
  - simpl. by rewrite set_trait_declaration_attributes_id.
  - rewrite (for_each_records _ _ _ xs); [by apply st_for_push_back| |exact Hxs].
    intros x s. unfold push_back_attribute.
    by destruct (trait_declaration_attributes_ s).
Qed.

Lemma Impl_trait_declaration_attributes_build self xs1 xs2 :
  trait_declaration_attributes_ self = None →
  outcome_of (partition_records L NDEBUG AssociatedTrait_AttrIndex "trait.attribute" self)
    (blob_ self) = Ok xs1 →
  outcome_of
    (partition_records L NDEBUG AssociatedTrait_AttrIndex ".msvc.trait.decl-attrs" self)
    (blob_ self) = Ok xs2 →
  let m := foldl push_back (foldl push_back ∅ xs1) xs2 in
  Impl_trait_declaration_attributes L NDEBUG AssociatedTrait_AttrIndex self
  = (Ok m, set_trait_declaration_attributes (Some m) self).
Proof.
  intros Hnone H1 H2 m. unfold Impl_trait_declaration_attributes. rewrite Hnone.
  unfold st_bind at 1.
  unfold st_bind at 1.
  erewrite (fill_decl_attributes_run "trait.attribute" _ xs1 ∅);
    [|reflexivity|exact H1].
  unfold st_bind at 1.
  erewrite (fill_decl_attributes_run ".msvc.trait.decl-attrs" _ xs2);
    [|reflexivity|exact H2].
  reflexivity.
Qed.

Lemma Impl_trait_deprecation_texts_build self xs :
  trait_deprecation_texts_ self = None →
  outcome_of (partition_records L NDEBUG AssociatedTrait_TextOffset "trait.deprecated" self)
    (blob_ self) = Ok xs →
  let m := foldl assign ∅ xs in
  Impl_trait_deprecation_texts L NDEBUG AssociatedTrait_TextOffset self
  = (Ok m, set_trait_deprecation_texts (Some m) self).
Proof.
  intros Hnone Hxs m. unfold Impl_trait_deprecation_texts. rewrite Hnone.
  unfold st_bind at 1.
  set (self1 := set_trait_deprecation_texts (Some ∅) self).
  rewrite st_bind_const.
  change (blob_ self1) with (blob_ self).
  change (try_get_partition L NDEBUG AssociatedTrait_TextOffset "trait.deprecated" self1)
    with (try_get_partition L NDEBUG AssociatedTrait_TextOffset "trait.deprecated" self).
  apply partition_records_inv in Hxs as [[Hp ->]|(p & Hp & Hxs)]; rewrite Hp.
  - reflexivity.
  - unfold st_bind at 1.
    rewrite (for_each_records _ _ _ xs); [| |exact Hxs].
    + erewrite (st_for_assign xs self1 ∅) by reflexivity. reflexivity.
    + intros x s. unfold assign_deprecation_text.
      by destruct (trait_deprecation_texts_ s).
Qed.

Lemma foldl_push_back_lookup xs m D :
  default [] (foldl push_back m xs !! D) = default [] (m !! D) ++ entries_of D xs.
Proof.
  revert m. induction xs as [|[d a] xs IH]; intros m.
  - unfold entries_of. simpl. by rewrite app_nil_r.
  - simpl. rewrite IH. unfold push_back, entries_of. simpl.
    destruct (decide (d = D)) as [->|Hne].
    + rewrite lookup_insert_eq, filter_cons_True by done. simpl.
      by rewrite <- app_assoc.
    + rewrite lookup_insert_ne, filter_cons_False by done. reflexivity.
Qed.

Lemma get_value_default (D : Z) (m : gmap Z (list Z)) :
  get_value (λ v : list Z, v) D m = default [] (m !! D).
Proof. unfold get_value. by destruct (m !! D). Qed.

Lemma File_trait_declaration_attributes_run self D xs1 xs2 :
  declaration_attributes_ok L NDEBUG AssociatedTrait_AttrIndex self →
  outcome_of (partition_records L NDEBUG AssociatedTrait_AttrIndex "trait.attribute" self)
    (blob_ self) = Ok xs1 →
  outcome_of
    (partition_records L NDEBUG AssociatedTrait_AttrIndex ".msvc.trait.decl-attrs" self)
    (blob_ self) = Ok xs2 →
  ∃ self',
    File_trait_declaration_attributes L NDEBUG AssociatedTrait_AttrIndex D self
    = (Ok (entries_of D xs1 ++ entries_of D xs2), self').
Proof.
  intros Hok H1 H2.
  assert (Hlookup :
    get_value (λ v : list Z, v) D (foldl push_back (foldl push_back ∅ xs1) xs2)
    = entries_of D xs1 ++ entries_of D xs2).
  { rewrite get_value_default, !foldl_push_back_lookup, lookup_empty. reflexivity. }
  unfold File_trait_declaration_attributes, st_bind.
  destruct (trait_declaration_attributes_ self) as [m|] eqn:Hm.
  - exists self. unfold Impl_trait_declaration_attributes. rewrite Hm.
    destruct (Hok m Hm) as (ys1 & ys2 & Hy1 & Hy2 & ->).
    rewrite H1 in Hy1. rewrite H2 in Hy2.
    injection Hy1 as <-. injection Hy2 as <-.
    unfold st_ret. by rewrite Hlookup.
  - rewrite (Impl_trait_declaration_attributes_build self xs1 xs2 Hm H1 H2).
    eexists. unfold st_ret. by rewrite Hlookup.
Qed.

Lemma File_trait_deprecation_texts_run self d :
  table_of_contents_ self !! "trait.deprecated" = None →
  deprecation_texts_ok L NDEBUG AssociatedTrait_TextOffset self →
  ∃ self',
    File_trait_deprecation_texts L NDEBUG AssociatedTrait_TextOffset d self
    = (Ok 0, self').
Proof.
  intros Hmissing Hok.
  assert (Hrec :
    outcome_of (partition_records L NDEBUG AssociatedTrait_TextOffset
                  "trait.deprecated" self) (blob_ self) = Ok []).
  { unfold partition_records, try_get_partition. by rewrite Hmissing. }
  unfold File_trait_deprecation_texts, st_bind.
  destruct (trait_deprecation_texts_ self) as [m|] eqn:Hm.
  - exists self. unfold Impl_trait_deprecation_texts. rewrite Hm.
    destruct (Hok m Hm) as (ys & Hys & ->).
    rewrite Hrec in Hys. injection Hys as <-. reflexivity.
  - rewrite (Impl_trait_deprecation_texts_build self [] Hm Hrec).
    eexists. reflexivity.
Qed.

(** ** The states a file goes through *)

Lemma st_bind_ok_inv {A B} (m : St A) (k : A → St B) self b self' :
  st_bind m k self = (Ok b, self') →
  ∃ a self1, m self = (Ok a, self1) ∧ k a self1 = (Ok b, self').
Proof.
  unfold st_bind. destruct (m self) as [[a| | |] self1]; try discriminate. eauto.
Qed.

Lemma st_for_loads_inv {V} (T : RecordType V) (body : V → St ()) addrs self self' :
  (∀ x s, blob_ (body x s).2 = blob_ s) →
  st_for addrs (λ addr, st_bind (st_const (λ _, load_T T addr)) body) self
  = (Ok (), self') →
  ∃ xs, outcome_of (rd_mapM (load_T T) addrs) (blob_ self) = Ok xs
        ∧ st_for xs body self = (Ok (), self').
Proof.
  intros Hbody. revert self.
  induction addrs as [|addr addrs IH]; intros self H.
  - exists []. split; [reflexivity|exact H].
  - rewrite st_for_cons, st_bind_const in H.
    destruct (outcome_of (load_T T addr) (blob_ self)) as [x| | |] eqn:Hx;
      try discriminate.
    pose proof (Hbody x self) as Hb.
    destruct (body x self) as [[[]| | |] s1] eqn:Hbx; try discriminate.
    simpl in Hb. apply IH in H as (xs & Hxs & Hfor). rewrite Hb in Hxs.
    exists (x :: xs). split.
    + simpl. rewrite outcome_of_bind, Hx. simpl.
      rewrite outcome_of_bind, Hxs. reflexivity.
    + rewrite st_for_cons, Hbx. exact Hfor.
Qed.

Lemma partition_records_loop_inv {V} (T : RecordType V) name (body : V → St ())
    self self' :
  (∀ x s, blob_ (body x s).2 = blob_ s) →
  st_bind (st_const (try_get_partition L NDEBUG T name))
    (λ p, match p with
          | Some p => for_each T p body
          | None => st_ret ()
          end) self = (Ok (), self') →
  ∃ xs, outcome_of (partition_records L NDEBUG T name self) (blob_ self) = Ok xs
        ∧ st_for xs body self = (Ok (), self').
Proof.
  intros Hbody H. rewrite st_bind_const in H.
  unfold partition_records. rewrite outcome_of_bind.
  destruct (outcome_of (try_get_partition L NDEBUG T name self) (blob_ self))
    as [[p|]| | |]; try discriminate.
  - apply st_for_loads_inv in H as (xs & Hxs & Hfor); [|exact Hbody]. eauto.
  - exists []. split; [reflexivity|exact H].
Qed.

Lemma blob_push_back_attribute x s :
  blob_ (push_back_attribute x.1 x.2 s).2 = blob_ s.
Proof. unfold push_back_attribute. by destruct (trait_declaration_attributes_ s). Qed.

Lemma blob_assign_deprecation_text x s :
  blob_ (assign_deprecation_text x.1 x.2 s).2 = blob_ s.
Proof. unfold assign_deprecation_text. by destruct (trait_deprecation_texts_ s). Qed.

Lemma blob_assign_friendship x s :
  blob_ (assign_friendship x.1 x.2 s).2 = blob_ s.
Proof. unfold assign_friendship. by destruct (trait_friendship_of_class_ s). Qed.

Lemma set_trait_friendship_of_class_id self m :
  trait_friendship_of_class_ self = Some m →
  set_trait_friendship_of_class (Some m) self = self.
Proof. destruct self. simpl. by intros ->. Qed.

Lemma st_for_assign_friendship xs self m :
  trait_friendship_of_class_ self = Some m →
  st_for xs (λ friendship, assign_friendship friendship.1 friendship.2) self
  = (Ok (), set_trait_friendship_of_class (Some (foldl assign m xs)) self).
Proof.
  revert self m. induction xs as [|x xs IH]; intros self m H.
  - simpl. by rewrite set_trait_friendship_of_class_id.
  - rewrite st_for_cons. unfold assign_friendship at 1. rewrite H.
    erewrite IH by reflexivity. reflexivity.
Qed.

(** A call that builds a trait map leaves the object with that map set to
    what the scan of the partitions gives, and nothing else changed. *)
Lemma Impl_trait_declaration_attributes_inv self m self' :
  trait_declaration_attributes_ self = None →
  Impl_trait_declaration_attributes L NDEBUG AssociatedTrait_AttrIndex self
  = (Ok m, self') →
  ∃ xs1 xs2,
    outcome_of (partition_records L NDEBUG AssociatedTrait_AttrIndex "trait.attribute"
                  self) (blob_ self) = Ok xs1
    ∧ outcome_of (partition_records L NDEBUG AssociatedTrait_AttrIndex
                    ".msvc.trait.decl-attrs" self) (blob_ self) = Ok xs2
    ∧ m = foldl push_back (foldl push_back ∅ xs1) xs2
    ∧ self' = set_trait_declaration_attributes (Some m) self.
Proof.
  intros Hnone H. unfold Impl_trait_declaration_attributes in H. rewrite Hnone in H.
  apply st_bind_ok_inv in H as ([] & s1 & [= <-] & H).
  apply st_bind_ok_inv in H as ([] & s2 & Hfill1 & H).
  apply st_bind_ok_inv in H as ([] & s3 & Hfill2 & H).
  apply partition_records_loop_inv in Hfill1 as (xs1 & H1 & Hfor1);
    [|apply blob_push_back_attribute].
  erewrite (st_for_push_back xs1 _ ∅) in Hfor1 by reflexivity.
  injection Hfor1 as <-.
  apply partition_records_loop_inv in Hfill2 as (xs2 & H2 & Hfor2);
    [|apply blob_push_back_attribute].
  erewrite (st_for_push_back xs2) in Hfor2 by reflexivity.
  injection Hfor2 as <-. simpl in H. injection H as <- <-.
  exists xs1, xs2. auto.
Qed.

Lemma Impl_trait_deprecation_texts_inv self m self' :
  trait_deprecation_texts_ self = None →
  Impl_trait_deprecation_texts L NDEBUG AssociatedTrait_TextOffset self = (Ok m, self') →
  ∃ xs,
    outcome_of (partition_records L NDEBUG AssociatedTrait_TextOffset "trait.deprecated"
                  self) (blob_ self) = Ok xs
    ∧ m = foldl assign ∅ xs
    ∧ self' = set_trait_deprecation_texts (Some m) self.
Proof.
  intros Hnone H. unfold Impl_trait_deprecation_texts in H. rewrite Hnone in H.
  apply st_bind_ok_inv in H as ([] & s1 & [= <-] & H).
  apply st_bind_ok_inv in H as (p & s2 & Hp & H).
  apply st_bind_ok_inv in H as ([] & s3 & Hloop & H).
  assert (Hfill :
    st_bind (st_const (try_get_partition L NDEBUG AssociatedTrait_TextOffset
                         "trait.deprecated"))
      (λ p, match p with
            | Some p =>
                for_each AssociatedTrait_TextOffset p
                  (λ deprecation,
                     assign_deprecation_text deprecation.1 deprecation.2)
            | None => st_ret ()
            end) (set_trait_deprecation_texts (Some ∅) self) = (Ok (), s3)).
  { unfold st_bind at 1. rewrite Hp. exact Hloop. }
  apply partition_records_loop_inv in Hfill as (xs & Hxs & Hfor);
    [|apply blob_assign_deprecation_text].
  erewrite (st_for_assign xs _ ∅) in Hfor by reflexivity.
  injection Hfor as <-. simpl in H. injection H as <- <-.
  exists xs. auto.
Qed.

Lemma Impl_trait_friendship_of_class_inv self m self' :
  trait_friendship_of_class_ self = None →
  Impl_trait_friendship_of_class L NDEBUG AssociatedTrait_Sequence self = (Ok m, self') →
  ∃ xs,
    outcome_of (partition_records L NDEBUG AssociatedTrait_Sequence "trait.friend"
                  self) (blob_ self) = Ok xs
    ∧ m = foldl assign ∅ xs
    ∧ self' = set_trait_friendship_of_class (Some m) self.
Proof.
  intros Hnone H. unfold Impl_trait_friendship_of_class in H. rewrite Hnone in H.
  apply st_bind_ok_inv in H as ([] & s1 & [= <-] & H).
  apply st_bind_ok_inv in H as (p & s2 & Hp & H).
  apply st_bind_ok_inv in H as ([] & s3 & Hloop & H).
  assert (Hfill :
    st_bind (st_const (try_get_partition L NDEBUG AssociatedTrait_Sequence
                         "trait.friend"))
      (λ p, match p with
            | Some p =>
                for_each AssociatedTrait_Sequence p
                  (λ friendship, assign_friendship friendship.1 friendship.2)
            | None => st_ret ()
            end) (set_trait_friendship_of_class (Some ∅) self) = (Ok (), s3)).
  { unfold st_bind at 1. rewrite Hp. exact Hloop. }
  apply partition_records_loop_inv in Hfill as (xs & Hxs & Hfor);
    [|apply blob_assign_friendship].
  erewrite (st_for_assign_friendship xs _ ∅) in Hfor by reflexivity.
  injection Hfor as <-. simpl in H. injection H as <- <-.
  exists xs. auto.
Qed.

Lemma partition_records_frame {V} (T : RecordType V) name self self' :
  table_of_contents_ self' = table_of_contents_ self →
  partition_records L NDEBUG T name self' = partition_records L NDEBUG T name self.
Proof. intros H. unfold partition_records, try_get_partition. by rewrite H. Qed.

Lemma declaration_attributes_ok_frame self self' :
  blob_ self' = blob_ self →
  table_of_contents_ self' = table_of_contents_ self →
  trait_declaration_attributes_ self' = trait_declaration_attributes_ self →
  declaration_attributes_ok L NDEBUG AssociatedTrait_AttrIndex self →
  declaration_attributes_ok L NDEBUG AssociatedTrait_AttrIndex self'.
Proof.
  intros Hb Ht Hc Hok m Hm. unfold declaration_attributes_ok in Hok.
  rewrite !(partition_records_frame _ _ _ _ Ht), Hb. apply Hok. by rewrite <- Hc.
Qed.

Lemma deprecation_texts_ok_frame self self' :
  blob_ self' = blob_ self →
  table_of_contents_ self' = table_of_contents_ self →
  trait_deprecation_texts_ self' = trait_deprecation_texts_ self →
  deprecation_texts_ok L NDEBUG AssociatedTrait_TextOffset self →
  deprecation_texts_ok L NDEBUG AssociatedTrait_TextOffset self'.
Proof.
  intros Hb Ht Hc Hok m Hm. unfold deprecation_texts_ok in Hok.
  rewrite !(partition_records_frame _ _ _ _ Ht), Hb. apply Hok. by rewrite <- Hc.
Qed.

Lemma friendship_of_class_ok_frame self self' :
  blob_ self' = blob_ self →
  table_of_contents_ self' = table_of_contents_ self →
  trait_friendship_of_class_ self' = trait_friendship_of_class_ self →
  friendship_of_class_ok L NDEBUG AssociatedTrait_Sequence self →
  friendship_of_class_ok L NDEBUG AssociatedTrait_Sequence self'.
Proof.
  intros Hb Ht Hc Hok m Hm. unfold friendship_of_class_ok in Hok.
  rewrite !(partition_records_frame _ _ _ _ Ht), Hb. apply Hok. by rewrite <- Hc.
Qed.

(** An accessor changes nothing but the cache table. *)
Lemma call_accessor_frame {V} (P : @Accessor V) self o self' :
  call_accessor L NDEBUG P self = (o, self') →
  ∃ c, length c = length (cached_partitions_ self)
       ∧ self' = set_cached_partitions c self.
Proof.
  assert (Hid : self = set_cached_partitions (cached_partitions_ self) self)
    by (by destruct self).
  assert (Hcache : ∀ (T : RecordType V) name slot,
    get_and_cache_partition L NDEBUG T name slot self = (o, self') →
    ∃ c, length c = length (cached_partitions_ self)
         ∧ self' = set_cached_partitions c self).
  { intros T name slot. unfold get_and_cache_partition.
    destruct (cached_partitions_ self !! FilePartitionCache.cache_index slot)
      as [[u|]|].
    - intros [= _ <-]. eauto.
    - destruct (get_partition L NDEBUG T name self (blob_ self)).1;
        intros [= _ <-]; eauto.
      eexists. split; [|reflexivity]. apply length_insert.
    - intros [= _ <-]. eauto. }
  destruct P as [T slot|T name slot|T name]; simpl.
  - apply Hcache.
  - apply Hcache.
  - unfold st_const. intros [= _ <-]. eauto.
Qed.

Lemma cache_index_lt_Num (cache_type : FilePartitionCache.t) :
  (FilePartitionCache.cache_index cache_type < FilePartitionCache.Num)%nat.
Proof. destruct cache_type; vm_compute; lia. Qed.

Local Abbreviation Impl_inv' :=
  (Impl_inv L NDEBUG AssociatedTrait_AttrIndex AssociatedTrait_TextOffset
     AssociatedTrait_Sequence).
Local Abbreviation File_step' :=
  (File_step L NDEBUG AssociatedTrait_AttrIndex AssociatedTrait_TextOffset
     AssociatedTrait_Sequence).
Local Abbreviation File_reachable' :=
  (File_reachable L NDEBUG AssociatedTrait_AttrIndex AssociatedTrait_TextOffset
     AssociatedTrait_Sequence).

Lemma Impl_inv_ctor data self :
  fst (File_ctor L data) = Ok self → Impl_inv' data self.
Proof.
  intros H. apply Impl_ctor_ok_inv in H as (toc & m & _ & _ & _ & ->).
  split; [reflexivity|]. split; [apply length_replicate|].
  repeat split; intros m' Hm'; discriminate Hm'.
Qed.

Lemma Impl_inv_step data self self' :
  File_step' self self' → Impl_inv' data self → Impl_inv' data self'.
Proof.
  intros Hstep (Hblob & Hlen & Hattr & Hdepr & Hfriend).
  destruct Hstep as [V P self p self' H|V P self e self' H|d self r self' H
                    |d self r self' H|d self r self' H].
  - apply call_accessor_frame in H as (c & Hc & ->).
    split; [exact Hblob|]. split; [simpl; congruence|]. repeat split; assumption.
  - apply call_accessor_frame in H as (c & Hc & ->).
    split; [exact Hblob|]. split; [simpl; congruence|]. repeat split; assumption.
  - unfold File_trait_declaration_attributes in H.
    apply st_bind_ok_inv in H as (m & s1 & Hm & [= _ <-]).
    destruct (trait_declaration_attributes_ self) as [m0|] eqn:Hc.
    + unfold Impl_trait_declaration_attributes in Hm. rewrite Hc in Hm.
      injection Hm as _ <-. repeat split; assumption.
    + apply Impl_trait_declaration_attributes_inv in Hm
        as (xs1 & xs2 & H1 & H2 & -> & ->); [|exact Hc].
      split; [exact Hblob|]. split; [exact Hlen|]. split; [|split].
      * intros m' [= <-]. exists xs1, xs2. auto.
      * eapply deprecation_texts_ok_frame; [..|exact Hdepr]; reflexivity.
      * eapply friendship_of_class_ok_frame; [..|exact Hfriend]; reflexivity.
  - unfold File_trait_deprecation_texts in H.
    apply st_bind_ok_inv in H as (m & s1 & Hm & [= _ <-]).
    destruct (trait_deprecation_texts_ self) as [m0|] eqn:Hc.
    + unfold Impl_trait_deprecation_texts in Hm. rewrite Hc in Hm.
      injection Hm as _ <-. repeat split; assumption.
    + apply Impl_trait_deprecation_texts_inv in Hm as (xs & Hxs & -> & ->);
        [|exact Hc].
      split; [exact Hblob|]. split; [exact Hlen|]. split; [|split].
      * eapply declaration_attributes_ok_frame; [..|exact Hattr]; reflexivity.
      * intros m' [= <-]. exists xs. auto.
      * eapply friendship_of_class_ok_frame; [..|exact Hfriend]; reflexivity.
  - unfold File_trait_friendship_of_class in H.
    apply st_bind_ok_inv in H as (m & s1 & Hm & [= _ <-]).
    destruct (trait_friendship_of_class_ self) as [m0|] eqn:Hc.
    + unfold Impl_trait_friendship_of_class in Hm. rewrite Hc in Hm.
      injection Hm as _ <-. repeat split; assumption.
    + apply Impl_trait_friendship_of_class_inv in Hm as (xs & Hxs & -> & ->);
        [|exact Hc].
      split; [exact Hblob|]. split; [exact Hlen|]. split; [|split].
      * eapply declaration_attributes_ok_frame; [..|exact Hattr]; reflexivity.
      * eapply deprecation_texts_ok_frame; [..|exact Hdepr]; reflexivity.
      * intros m' [= <-]. exists xs. auto.
Qed.

(** Every state of a file opened on [data] still borrows [data], and each of
    its trait maps, once built, is the scan of its partitions. *)
Lemma File_reachable_inv data self :
  File_reachable' data self → Impl_inv' data self.
Proof.
  intros (self0 & Hopen & Hsteps).
  apply Impl_inv_ctor in Hopen.
  induction Hsteps as [|s1 s2 s3 Hstep _ IH]; [exact Hopen|].
  apply IH. eapply Impl_inv_step; eauto.
Qed.

(** On such a state every slot of the cache table exists. *)
Lemma File_reachable_slot data self (cache_type : FilePartitionCache.t) :
  File_reachable' data self →
  is_Some (cached_partitions_ self !! FilePartitionCache.cache_index cache_type).
Proof.
  intros Hreach. apply File_reachable_inv in Hreach as (_ & Hlen & _).
  apply lookup_lt_is_Some. rewrite Hlen. apply cache_index_lt_Num.
Qed.

Lemma File_reachable_step data self self' :
  File_reachable' data self → File_step' self self' → File_reachable' data self'.
Proof.
  intros (self0 & Hopen & Hsteps) Hstep. exists self0. split; [exact Hopen|].
  eapply rtc_r; eauto.
Qed.

(** C5. On a file that was opened and used through its interface,
    [trait_declaration_attributes(D)] is the list of the attributes that the
    records of [trait.attribute] attach to [D], in partition order, followed
    by those that the records of [.msvc.trait.decl-attrs] attach to [D], in
    partition order, nothing removed; with (7, A1) in the first partition and
    (7, A2) in the second the result for 7 is [A1, A2]. This holds for the
    call that builds the map and for every later one. *)
Theorem declaration_attributes_order (data : BlobView) (self : Impl) (D : Z)
    (xs1 xs2 : list (Z * Z)) :
  File_reachable' data self →
  outcome_of (partition_records L NDEBUG AssociatedTrait_AttrIndex "trait.attribute" self)
    data = Ok xs1 →
  outcome_of
    (partition_records L NDEBUG AssociatedTrait_AttrIndex ".msvc.trait.decl-attrs" self)
    data = Ok xs2 →
  ∃ self',
    File_trait_declaration_attributes L NDEBUG AssociatedTrait_AttrIndex D self
    = (Ok (entries_of D xs1 ++ entries_of D xs2), self')
    ∧ File_reachable' data self'
    ∧ (∀ A1 A2, D = 7 → xs1 = [(7, A1)] → xs2 = [(7, A2)] →
       File_trait_declaration_attributes L NDEBUG AssociatedTrait_AttrIndex 7 self
       = (Ok [A1; A2], self')).
Proof.
  intros Hreach H1 H2.
  pose proof (File_reachable_inv _ _ Hreach) as (Hblob & _ & Hattr & _).
  rewrite <- Hblob in H1, H2.
  destruct (File_trait_declaration_attributes_run self D xs1 xs2 Hattr H1 H2)
    as (self' & Hrun).
  exists self'. split; [exact Hrun|]. split.
  - eapply File_reachable_step; [exact Hreach|].
    eapply step_trait_declaration_attributes. exact Hrun.
  - intros A1 A2 -> -> ->. rewrite Hrun. reflexivity.
Qed.

(** C6. On a file whose table of contents does not list [trait.deprecated],
    [trait_deprecation_texts(d)] returns the null text offset for every
    declaration [d] and the call succeeds, whether it is the call that builds
    the map or a later one; in general [get_value] returns the
    value-initialised result for a key that is not in the map. *)
Theorem missing_deprecation_partition (data : BlobView) (self : Impl) :
  File_reachable' data self →
  table_of_contents_ self !! "trait.deprecated" = None →
  (∀ d : Z, ∃ self',
     File_trait_deprecation_texts L NDEBUG AssociatedTrait_TextOffset d self
     = (Ok 0, self')
     ∧ File_reachable' data self')
  ∧ (∀ (RetType Value : Type) (dflt : ValueInit RetType) (conv : Value → RetType)
       (map : gmap Z Value) (d : Z),
       map !! d = None → get_value conv d map = value_init).
Proof.
  intros Hreach Hmissing.
  pose proof (File_reachable_inv _ _ Hreach) as (_ & _ & _ & Hdepr & _).
  split.
  - intros d.
    destruct (File_trait_deprecation_texts_run self d Hmissing Hdepr) as (self' & Hrun).
    exists self'. split; [exact Hrun|].
    eapply File_reachable_step; [exact Hreach|].
    eapply step_trait_deprecation_texts. exact Hrun.
  - intros RetType Value dflt conv map d Hd. unfold get_value. by rewrite Hd.
Qed.

(** ** Imported modules *)

Lemma trace_of_bind {A B} (m : Rd A) (k : A → Rd B) blob :
  trace_of (rd_bind m k) blob
  = trace_of m blob
    ++ match outcome_of m blob with
       | Ok a => trace_of (k a) blob
       | _ => []
       end.
Proof.
  unfold outcome_of, trace_of, rd_bind.
  destruct (m blob) as [[a| | |] t]; simpl; rewrite ?app_nil_r; try reflexivity.
  destruct (k a blob); reflexivity.
Qed.

Lemma env_queries_app t1 t2 : env_queries (t1 ++ t2) = env_queries t1 ++ env_queries t2.
Proof. apply omap_app. Qed.

Lemma reads_only_ret {A} (a : A) : reads_only (rd_ret a).
Proof. intros blob. reflexivity. Qed.

Lemma reads_only_blob : reads_only rd_blob.
Proof. intros blob. reflexivity. Qed.

Lemma reads_only_bind {A B} (m : Rd A) (k : A → Rd B) :
  reads_only m → (∀ a, reads_only (k a)) → reads_only (rd_bind m k).
Proof.
  intros Hm Hk blob. rewrite trace_of_bind, env_queries_app, Hm.
  destruct (outcome_of m blob); simpl; try reflexivity. apply Hk.
Qed.

Lemma reads_only_read_byte off : reads_only (read_byte off).
Proof. intros blob. reflexivity. Qed.

Lemma reads_only_mapM {A B} (f : A → Rd B) l :
  (∀ x, reads_only (f x)) → reads_only (rd_mapM f l).
Proof.
  intros Hf. induction l as [|x l IH]; simpl.
  - apply reads_only_ret.
  - apply reads_only_bind; [apply Hf|]. intros y.
    apply reads_only_bind; [apply IH|]. intros ys. apply reads_only_ret.
Qed.

Lemma reads_only_read_u32 off : reads_only (read_u32 off).
Proof.
  unfold read_u32, read_bytes. apply reads_only_bind.
  - apply reads_only_mapM, reads_only_read_byte.
  - intros bs. apply reads_only_ret.
Qed.

Lemma reads_only_cstring_from bytes off :
  env_queries (cstring_from bytes off).2 = [].
Proof.
  revert off. induction bytes as [|c rest IH]; intros off; simpl; [reflexivity|].
  case_decide; [reflexivity|]. specialize (IH (off + 1)).
  destruct (cstring_from rest (off + 1)) as [r t]. simpl in *. exact IH.
Qed.

Lemma reads_only_load_cstring p : reads_only (load_cstring p).
Proof.
  unfold load_cstring. apply reads_only_bind; [apply reads_only_blob|].
  intros blob blob'. unfold trace_of, read_cstring.
  case_decide; [apply reads_only_cstring_from|reflexivity].
Qed.

Lemma reads_only_get_string_value index : reads_only (get_string_value L index).
Proof.
  unfold get_string_value, get_string, header_field.
  apply reads_only_bind; [|intros p; apply reads_only_load_cstring].
  apply reads_only_bind; [apply reads_only_read_u32|]. intros stb.
  apply reads_only_bind; [|intros p; apply reads_only_ret].
  intros blob. reflexivity.
Qed.

(** The call of the environment that ends [get_imported_module], once the
    name is computed. *)
Lemma query_after_reads {R A} (env : string → R) (m : Rd A) (k : A → string) blob a :
  reads_only m →
  outcome_of m blob = Ok a →
  outcome_of (rd_bind m (λ x, get_module_by_name env (k x))) blob = Ok (env (k a))
  ∧ env_queries (trace_of (rd_bind m (λ x, get_module_by_name env (k x))) blob)
    = [k a].
Proof.
  intros Hm Ha. split.
  - rewrite outcome_of_bind, Ha. reflexivity.
  - rewrite trace_of_bind, Ha, env_queries_app, Hm. reflexivity.
Qed.

(** C9. [get_imported_module] asks the environment exactly once: for
    [get_string(partition)] when the owner is null; for [get_string(owner)],
    a colon and [get_string(partition)] when neither is null; for
    [get_string(owner)] alone when only the partition is null. With a null
    owner and the partition "std" the environment is asked for "std". *)
Theorem imported_module_query {R} (env : string → R) (module : ModuleReference)
    (blob : BlobView) :
  let call := File_get_imported_module L env module in
  (is_null (mr_owner module) = true →
   ∀ partition,
     outcome_of (get_string_value L (mr_partition module)) blob = Ok partition →
     outcome_of call blob = Ok (env partition)
     ∧ env_queries (trace_of call blob) = [partition])
  ∧ (is_null (mr_owner module) = false → is_null (mr_partition module) = false →
     ∀ owner partition,
       outcome_of (get_string_value L (mr_owner module)) blob = Ok owner →
       outcome_of (get_string_value L (mr_partition module)) blob = Ok partition →
       outcome_of call blob = Ok (env (owner +:+ ":" +:+ partition))
       ∧ env_queries (trace_of call blob) = [owner +:+ ":" +:+ partition])
  ∧ (is_null (mr_owner module) = false → is_null (mr_partition module) = true →
     ∀ owner,
       outcome_of (get_string_value L (mr_owner module)) blob = Ok owner →
       outcome_of call blob = Ok (env owner)
       ∧ env_queries (trace_of call blob) = [owner])
  ∧ (is_null (mr_owner module) = true →
     outcome_of (get_string_value L (mr_partition module)) blob = Ok "std" →
     env_queries (trace_of call blob) = ["std"]).
Proof.
  intros call. subst call. unfold File_get_imported_module.
  split; [|split; [|split]].
  - intros Hnull partition Hp. rewrite Hnull.
    apply (query_after_reads env _ (λ x, x));
      [apply reads_only_get_string_value | exact Hp].
  - intros Ho Hp owner partition Hown Hpart. rewrite Ho, Hp. simpl.
    split.
    + rewrite outcome_of_bind, Hown. simpl.
      rewrite outcome_of_bind, outcome_of_bind, Hpart. reflexivity.
    + rewrite trace_of_bind, Hown, env_queries_app, reads_only_get_string_value.
      rewrite trace_of_bind, outcome_of_bind, Hpart. simpl.
      rewrite env_queries_app.
      rewrite (reads_only_bind (get_string_value L (mr_partition module))
                 (λ s, rd_ret (owner +:+ ":" +:+ s))
                 (reads_only_get_string_value _) (λ s, reads_only_ret _)).
      reflexivity.
  - intros Ho Hp owner Hown. rewrite Ho, Hp. simpl. split.
    + rewrite outcome_of_bind, Hown. reflexivity.
    + rewrite trace_of_bind, Hown, env_queries_app, reads_only_get_string_value.
      reflexivity.
  - intros Hnull Hp. rewrite Hnull.
    apply (query_after_reads env _ (λ x, x));
      [apply reads_only_get_string_value | exact Hp].
Qed.

End ReaderProperties.

(** * More properties of the reader *)

(** ** The cache table and the catalogue of accessors *)

Lemma cache_index_inj (a b : FilePartitionCache.t) :
  FilePartitionCache.cache_index a = FilePartitionCache.cache_index b → a = b.
Proof.
  assert (Hrow : ∀ c, (accessor_row c ≫= λ row, Some row.1.2) = Some c)
    by (intros c; destruct c; reflexivity).
  intros Hab. pose proof (Hrow a) as Ha. pose proof (Hrow b) as Hb.
  unfold accessor_row in Ha, Hb. rewrite Hab in Ha. congruence.
Qed.

(** X1. Every slot of the cache table is used by exactly one cached
    accessor: the catalogue has as many rows as the table has slots, no two
    rows share a slot, every enumerator has its row, and every slot index is
    below [Num]. *)
Theorem cache_slots_one_accessor_each :
  length public_accessors = FilePartitionCache.Num
  ∧ NoDup ((λ row, FilePartitionCache.cache_index row.1.2) <$> public_accessors)
  ∧ (∀ c : FilePartitionCache.t,
       ∃ method name, accessor_row c = Some (method, c, name)
                      ∧ (method, c, name) ∈ public_accessors)
  ∧ (∀ c : FilePartitionCache.t,
       (FilePartitionCache.cache_index c < FilePartitionCache.Num)%nat).
Proof.
  split; [reflexivity|]. split; [|split].
  - apply (bool_decide_unpack _). vm_compute. exact I.
  - intros c.
    assert (Hrow : ∃ method name, accessor_row c = Some (method, c, name))
      by (destruct c; eexists _, _; reflexivity).
    destruct Hrow as (method & name & Hrow). exists method, name.
    split; [exact Hrow|].
    unfold accessor_row in Hrow.
    destruct (list_find _ public_accessors) as [[i row]|] eqn:Hfind;
      [|discriminate].
    injection Hrow as ->. apply list_find_Some in Hfind as (Hi & _).
    eapply list_elem_of_lookup_2. exact Hi.
  - intros c. destruct c; vm_compute; lia.
Qed.

Section ReaderCoverage.

Variable L : Layout.
Variable NDEBUG : bool.

(** X2. The cache is keyed by the slot alone: once a call has filled a slot,
    every call on that slot returns the stored pointer and length without
    looking at the table of contents, whatever name and record type it is
    made with, and leaves the object as it is. *)
Theorem cache_hit_ignores_name_and_type {V W} (T : RecordType V) (T' : RecordType W)
    (name name' : string) (slot : FilePartitionCache.t) (self self' : Impl)
    (p : Partition) :
  get_and_cache_partition L NDEBUG T name slot self = (Ok p, self') →
  get_and_cache_partition L NDEBUG T' name' slot self' = (Ok p, self').
Proof.
  unfold get_and_cache_partition.
  destruct (cached_partitions_ self !! FilePartitionCache.cache_index slot)
    as [[u|]|] eqn:Hslot.
  - intros [= <- <-]. rewrite Hslot. reflexivity.
  - destruct (fst (get_partition L NDEBUG T name self (blob_ self)))
      as [result| | |]; try discriminate.
    intros [= <- <-]. simpl.
    rewrite list_lookup_insert_eq by (eapply lookup_lt_Some; eauto).
    destruct result; reflexivity.
  - discriminate.
Qed.

(** X3. A failed resolution is not cached: with an empty slot and a name the
    table of contents does not list, the cached accessor throws
    [out_of_range] and leaves the object unchanged, so every further call
    throws again; the same holds for [get_partition_with_cache] and its
    optional member. *)
Theorem failed_resolution_is_not_cached {V} (T : RecordType V) (name : string)
    (slot : FilePartitionCache.t) (self : Impl) :
  cached_partitions_ self !! FilePartitionCache.cache_index slot = Some None →
  table_of_contents_ self !! name = None →
  get_and_cache_partition L NDEBUG T name slot self = (Throw out_of_range, self)
  ∧ get_partition_with_cache L NDEBUG T None name self = (Throw out_of_range, None).
Proof.
  intros Hslot Hname.
  unfold get_and_cache_partition, get_partition_with_cache, get_partition.
  rewrite Hslot, Hname. split; reflexivity.
Qed.

(** X4. An accessor call touches nothing but its own slot: whatever its
    outcome, the blob, the name map and the three trait maps are as before,
    the table keeps its length, and every other slot keeps its content. *)
Theorem accessor_changes_only_its_slot {V} (T : RecordType V) (name : string)
    (slot : FilePartitionCache.t) (self self' : Impl) (o : Outcome Partition) :
  get_and_cache_partition L NDEBUG T name slot self = (o, self') →
  blob_ self' = blob_ self
  ∧ table_of_contents_ self' = table_of_contents_ self
  ∧ trait_declaration_attributes_ self' = trait_declaration_attributes_ self
  ∧ trait_deprecation_texts_ self' = trait_deprecation_texts_ self
  ∧ trait_friendship_of_class_ self' = trait_friendship_of_class_ self
  ∧ length (cached_partitions_ self') = length (cached_partitions_ self)
  ∧ ∀ other : FilePartitionCache.t,
      other ≠ slot →
      cached_partitions_ self' !! FilePartitionCache.cache_index other
      = cached_partitions_ self !! FilePartitionCache.cache_index other.
Proof.
  unfold get_and_cache_partition.
  destruct (cached_partitions_ self !! FilePartitionCache.cache_index slot)
    as [[u|]|].
  - intros [= _ <-]. repeat split; reflexivity.
  - destruct (get_partition L NDEBUG T name self (blob_ self)).1;
      intros [= _ <-]; try (repeat split; reflexivity).
    simpl. repeat split; try reflexivity.
    + apply length_insert.
    + intros other Hne. apply list_lookup_insert_ne.
      intros Heq. apply Hne. symmetry. by apply cache_index_inj.
  - intros [= _ <-]. repeat split; reflexivity.
Qed.

(** ** Trait maps: last write, memoisation, missing partitions, the guard *)

Variable AssociatedTrait_AttrIndex : RecordType (Z * Z).
Variable AssociatedTrait_TextOffset : RecordType (Z * Z).
Variable AssociatedTrait_Sequence : RecordType (Z * Sequence).

Local Abbreviation reachable :=
  (File_reachable L NDEBUG AssociatedTrait_AttrIndex AssociatedTrait_TextOffset
     AssociatedTrait_Sequence).

Lemma foldl_assign_lookup {T} (xs : list (Z * T)) (m : gmap Z T) (D : Z) :
  foldl assign m xs !! D
  = match last (entries_of D xs) with
    | Some v => Some v
    | None => m !! D
    end.
Proof.
  revert m. induction xs as [|[d a] xs IH]; intros m; [reflexivity|].
  simpl. rewrite IH. unfold assign, entries_of. simpl.
  destruct (decide (d = D)) as [->|Hne].
  - rewrite filter_cons_True by done. simpl.
    rewrite last_cons, lookup_insert_eq. by destruct (last _).
  - rewrite filter_cons_False by done. by rewrite lookup_insert_ne.
Qed.

Lemma get_value_last_entry {T} `{ValueInit T} (xs : list (Z * T)) (D : Z) :
  get_value (λ v : T, v) D (foldl assign ∅ xs) = last_entry D xs.
Proof.
  unfold get_value, last_entry. rewrite foldl_assign_lookup, lookup_empty.
  by destruct (last _).
Qed.

Lemma Impl_trait_friendship_of_class_build self xs :
  trait_friendship_of_class_ self = None →
  outcome_of (partition_records L NDEBUG AssociatedTrait_Sequence "trait.friend" self)
    (blob_ self) = Ok xs →
  let m := foldl assign ∅ xs in
  Impl_trait_friendship_of_class L NDEBUG AssociatedTrait_Sequence self
  = (Ok m, set_trait_friendship_of_class (Some m) self).
Proof.
  intros Hnone Hxs m. unfold Impl_trait_friendship_of_class. rewrite Hnone.
  unfold st_bind at 1.
  set (self1 := set_trait_friendship_of_class (Some ∅) self).
  rewrite st_bind_const.
  change (blob_ self1) with (blob_ self).
  change (try_get_partition L NDEBUG AssociatedTrait_Sequence "trait.friend" self1)
    with (try_get_partition L NDEBUG AssociatedTrait_Sequence "trait.friend" self).
  apply partition_records_inv in Hxs as [[Hp ->]|(p & Hp & Hxs)]; rewrite Hp.
  - reflexivity.
  - unfold st_bind at 1.
    rewrite (for_each_records _ _ _ xs); [| |exact Hxs].
    + erewrite (st_for_assign_friendship xs self1 ∅) by reflexivity. reflexivity.
    + intros x s. apply blob_assign_friendship.
Qed.

(** X5. Deprecation texts are last-write-wins: on a file that was opened and
    used through its interface, [trait_deprecation_texts(d)] is the text
    offset of the last record of [trait.deprecated] whose declaration is [d],
    and the null offset when no record is for [d]. *)
Theorem deprecation_text_last_record_wins (data : BlobView) (self : Impl) (d : Z)
    (xs : list (Z * Z)) :
  reachable data self →
  outcome_of
    (partition_records L NDEBUG AssociatedTrait_TextOffset "trait.deprecated" self)
    data = Ok xs →
  ∃ self',
    File_trait_deprecation_texts L NDEBUG AssociatedTrait_TextOffset d self
    = (Ok (last_entry d xs), self').
Proof.
  intros Hreach Hxs.
  pose proof (File_reachable_inv _ _ _ _ _ _ _ Hreach) as (Hblob & _ & _ & Hok & _).
  rewrite <- Hblob in Hxs.
  unfold File_trait_deprecation_texts, st_bind.
  destruct (trait_deprecation_texts_ self) as [m|] eqn:Hm.
  - exists self. unfold Impl_trait_deprecation_texts. rewrite Hm.
    destruct (Hok m Hm) as (ys & Hys & ->).
    rewrite Hxs in Hys. injection Hys as <-.
    unfold st_ret. by rewrite get_value_last_entry.
  - rewrite (Impl_trait_deprecation_texts_build _ _ _ self xs Hm Hxs).
    eexists. unfold st_ret. by rewrite get_value_last_entry.
Qed.

(** X6. Friendships are last-write-wins too, and a missing partition is not
    an error: [trait_friendship_of_class(d)] is the sequence of the last
    record of [trait.friend] whose declaration is [d], the empty sequence
    when no record is for [d], and the empty sequence for every [d] when the
    table of contents does not list [trait.friend]. *)
Theorem friendship_last_record_wins (data : BlobView) (self : Impl) (d : Z) :
  reachable data self →
  (∀ xs,
     outcome_of
       (partition_records L NDEBUG AssociatedTrait_Sequence "trait.friend" self)
       data = Ok xs →
     ∃ self',
       File_trait_friendship_of_class L NDEBUG AssociatedTrait_Sequence d self
       = (Ok (last_entry d xs), self'))
  ∧ (table_of_contents_ self !! "trait.friend" = None →
     ∃ self',
       File_trait_friendship_of_class L NDEBUG AssociatedTrait_Sequence d self
       = (Ok {| seq_start := 0; seq_cardinality := 0 |}, self')).
Proof.
  intros Hreach.
  pose proof (File_reachable_inv _ _ _ _ _ _ _ Hreach) as (Hblob & _ & _ & _ & Hok).
  assert (Hrun : ∀ xs,
    outcome_of
      (partition_records L NDEBUG AssociatedTrait_Sequence "trait.friend" self)
      (blob_ self) = Ok xs →
    ∃ self',
      File_trait_friendship_of_class L NDEBUG AssociatedTrait_Sequence d self
      = (Ok (last_entry d xs), self')).
  { intros xs Hxs. unfold File_trait_friendship_of_class, st_bind.
    destruct (trait_friendship_of_class_ self) as [m|] eqn:Hm.
    - exists self. unfold Impl_trait_friendship_of_class. rewrite Hm.
      destruct (Hok m Hm) as (ys & Hys & ->).
      rewrite Hxs in Hys. injection Hys as <-.
      unfold st_ret. by rewrite get_value_last_entry.
    - rewrite (Impl_trait_friendship_of_class_build self xs Hm Hxs).
      eexists. unfold st_ret. by rewrite get_value_last_entry. }
  split.
  - intros xs Hxs. apply Hrun. by rewrite Hblob.
  - intros Hmissing. apply (Hrun []).
    unfold partition_records, try_get_partition. by rewrite Hmissing.
Qed.

(** X7. With neither [trait.attribute] nor [.msvc.trait.decl-attrs] in the
    table of contents, [trait_declaration_attributes(D)] is the empty span
    for every declaration, and the call succeeds. *)
Theorem attributes_without_partitions (data : BlobView) (self : Impl) (D : Z) :
  reachable data self →
  table_of_contents_ self !! "trait.attribute" = None →
  table_of_contents_ self !! ".msvc.trait.decl-attrs" = None →
  ∃ self',
    File_trait_declaration_attributes L NDEBUG AssociatedTrait_AttrIndex D self
    = (Ok [], self').
Proof.
  intros Hreach H1 H2.
  pose proof (File_reachable_inv _ _ _ _ _ _ _ Hreach) as (_ & _ & Hok & _).
  apply (File_trait_declaration_attributes_run L NDEBUG AssociatedTrait_AttrIndex
           self D [] [] Hok).
  - unfold partition_records, try_get_partition. by rewrite H1.
  - unfold partition_records, try_get_partition. by rewrite H2.
Qed.

Lemma Impl_trait_declaration_attributes_memo self m self' :
  Impl_trait_declaration_attributes L NDEBUG AssociatedTrait_AttrIndex self
  = (Ok m, self') →
  trait_declaration_attributes_ self' = Some m.
Proof.
  unfold Impl_trait_declaration_attributes.
  destruct (trait_declaration_attributes_ self) as [m0|] eqn:Hc.
  - intros [= <- <-]. exact Hc.
  - intros H.
    apply st_bind_ok_inv in H as ([] & s1 & _ & H).
    apply st_bind_ok_inv in H as ([] & s2 & _ & H).
    apply st_bind_ok_inv in H as ([] & s3 & _ & H).
    destruct (trait_declaration_attributes_ s3) eqn:Hs3; [|discriminate].
    injection H as <- <-. exact Hs3.
Qed.

Lemma Impl_trait_deprecation_texts_memo self m self' :
  Impl_trait_deprecation_texts L NDEBUG AssociatedTrait_TextOffset self = (Ok m, self') →
  trait_deprecation_texts_ self' = Some m.
Proof.
  unfold Impl_trait_deprecation_texts.
  destruct (trait_deprecation_texts_ self) as [m0|] eqn:Hc.
  - intros [= <- <-]. exact Hc.
  - intros H.
    apply st_bind_ok_inv in H as ([] & s1 & _ & H).
    apply st_bind_ok_inv in H as (p & s2 & _ & H).
    apply st_bind_ok_inv in H as ([] & s3 & _ & H).
    destruct (trait_deprecation_texts_ s3) eqn:Hs3; [|discriminate].
    injection H as <- <-. exact Hs3.
Qed.

Lemma Impl_trait_friendship_of_class_memo self m self' :
  Impl_trait_friendship_of_class L NDEBUG AssociatedTrait_Sequence self = (Ok m, self') →
  trait_friendship_of_class_ self' = Some m.
Proof.
  unfold Impl_trait_friendship_of_class.
  destruct (trait_friendship_of_class_ self) as [m0|] eqn:Hc.
  - intros [= <- <-]. exact Hc.
  - intros H.
    apply st_bind_ok_inv in H as ([] & s1 & _ & H).
    apply st_bind_ok_inv in H as (p & s2 & _ & H).
    apply st_bind_ok_inv in H as ([] & s3 & _ & H).
    destruct (trait_friendship_of_class_ s3) eqn:Hs3; [|discriminate].
    injection H as <- <-. exact Hs3.
Qed.

(** X8. The trait maps are built once: after a trait query has succeeded,
    every later query of the same kind, for any declaration, answers from
    the stored map and leaves the object unchanged; asked again for the same
    declaration it gives the same answer. This holds for the three kinds of
    query. *)
Theorem trait_queries_are_memoised :
  (∀ d r self self',
     File_trait_declaration_attributes L NDEBUG AssociatedTrait_AttrIndex d self
     = (Ok r, self') →
     ∃ m, trait_declaration_attributes_ self' = Some m
          ∧ File_trait_declaration_attributes L NDEBUG AssociatedTrait_AttrIndex d self'
            = (Ok r, self')
          ∧ ∀ d', File_trait_declaration_attributes L NDEBUG
                    AssociatedTrait_AttrIndex d' self'
                  = (Ok (default [] (m !! d')), self'))
  ∧ (∀ d r self self',
       File_trait_deprecation_texts L NDEBUG AssociatedTrait_TextOffset d self
       = (Ok r, self') →
       ∃ m, trait_deprecation_texts_ self' = Some m
            ∧ File_trait_deprecation_texts L NDEBUG AssociatedTrait_TextOffset d self'
              = (Ok r, self')
            ∧ ∀ d', File_trait_deprecation_texts L NDEBUG
                      AssociatedTrait_TextOffset d' self'
                    = (Ok (default 0 (m !! d')), self'))
  ∧ (∀ d r self self',
       File_trait_friendship_of_class L NDEBUG AssociatedTrait_Sequence d self
       = (Ok r, self') →
       ∃ m, trait_friendship_of_class_ self' = Some m
            ∧ File_trait_friendship_of_class L NDEBUG AssociatedTrait_Sequence d self'
              = (Ok r, self')
            ∧ ∀ d', File_trait_friendship_of_class L NDEBUG
                      AssociatedTrait_Sequence d' self'
                    = (Ok (default {| seq_start := 0; seq_cardinality := 0 |}
                             (m !! d')), self')).
Proof.
  split; [|split].
  - intros d r self self' H. unfold File_trait_declaration_attributes in H.
    apply st_bind_ok_inv in H as (m & s1 & Hm & [= <- <-]).
    apply Impl_trait_declaration_attributes_memo in Hm. exists m.
    split; [exact Hm|].
    assert (Hq : ∀ d', File_trait_declaration_attributes L NDEBUG
                         AssociatedTrait_AttrIndex d' s1
                       = (Ok (get_value (λ v : list Z, v) d' m), s1)).
    { intros d'. unfold File_trait_declaration_attributes, st_bind,
        Impl_trait_declaration_attributes. by rewrite Hm. }
    split; [apply Hq|]. intros d'. rewrite Hq. unfold get_value.
    by destruct (m !! d').
  - intros d r self self' H. unfold File_trait_deprecation_texts in H.
    apply st_bind_ok_inv in H as (m & s1 & Hm & [= <- <-]).
    apply Impl_trait_deprecation_texts_memo in Hm. exists m.
    split; [exact Hm|].
    assert (Hq : ∀ d', File_trait_deprecation_texts L NDEBUG
                         AssociatedTrait_TextOffset d' s1
                       = (Ok (get_value (λ v : Z, v) d' m), s1)).
    { intros d'. unfold File_trait_deprecation_texts, st_bind,
        Impl_trait_deprecation_texts. by rewrite Hm. }
    split; [apply Hq|]. intros d'. rewrite Hq. unfold get_value.
    by destruct (m !! d').
  - intros d r self self' H. unfold File_trait_friendship_of_class in H.
    apply st_bind_ok_inv in H as (m & s1 & Hm & [= <- <-]).
    apply Impl_trait_friendship_of_class_memo in Hm. exists m.
    split; [exact Hm|].
    assert (Hq : ∀ d', File_trait_friendship_of_class L NDEBUG
                         AssociatedTrait_Sequence d' s1
                       = (Ok (get_value (λ v : Sequence, v) d' m), s1)).
    { intros d'. unfold File_trait_friendship_of_class, st_bind,
        Impl_trait_friendship_of_class. by rewrite Hm. }
    split; [apply Hq|]. intros d'. rewrite Hq. unfold get_value.
    by destruct (m !! d').
Qed.

(** ** The entry-size guard beyond [get_partition] *)

Lemma get_partition_at_guard {V} (T : RecordType V) blob partition e :
  outcome_of (load_u32 (partition + offsetof_entry_size L)) blob = Ok e →
  e ≠ sizeof_T T →
  outcome_of (get_partition_at L false T partition) blob = AssertFailed.
Proof.
  intros He Hne. unfold get_partition_at.
  rewrite outcome_of_bind, outcome_of_bind, He. simpl.
  destruct (decide (e = sizeof_T T)); [contradiction|reflexivity].
Qed.

(** X9. In a build with assertions the entry-size guard also stops the
    optional lookup, the cached accessors and the trait queries: when the
    descriptor listed under the name has an entry size other than
    [sizeof(T)], [try_get_partition] aborts instead of answering, a cached
    accessor aborts without filling its slot, and the first
    [trait_declaration_attributes] query aborts while scanning
    [trait.attribute]. *)
Theorem entry_size_guard_stops_lookups (self : Impl) (partition e : Z) :
  table_of_contents_ self !! "trait.attribute" = Some partition →
  outcome_of (load_u32 (partition + offsetof_entry_size L)) (blob_ self) = Ok e →
  e ≠ sizeof_T AssociatedTrait_AttrIndex →
  outcome_of (try_get_partition L false AssociatedTrait_AttrIndex "trait.attribute" self)
    (blob_ self) = AssertFailed
  ∧ (∀ slot,
       cached_partitions_ self !! FilePartitionCache.cache_index slot = Some None →
       get_and_cache_partition L false AssociatedTrait_AttrIndex "trait.attribute"
         slot self = (AssertFailed, self))
  ∧ (∀ D,
       trait_declaration_attributes_ self = None →
       fst (File_trait_declaration_attributes L false AssociatedTrait_AttrIndex D self)
       = AssertFailed).
Proof.
  intros Hname He Hne.
  pose proof (get_partition_at_guard AssociatedTrait_AttrIndex _ _ _ He Hne) as Hat.
  assert (Htry :
    outcome_of (try_get_partition L false AssociatedTrait_AttrIndex "trait.attribute"
                  self) (blob_ self) = AssertFailed).
  { unfold try_get_partition. rewrite Hname, outcome_of_bind, Hat. reflexivity. }
  split; [exact Htry|]. split.
  - intros slot Hslot. unfold get_and_cache_partition, get_partition.
    rewrite Hslot, Hname. unfold outcome_of in Hat. rewrite Hat. reflexivity.
  - intros D Hnone.
    unfold File_trait_declaration_attributes, st_bind at 1,
      Impl_trait_declaration_attributes.
    rewrite Hnone. unfold st_bind at 1. unfold st_bind at 1.
    unfold fill_decl_attributes at 1. rewrite st_bind_const.
    change (outcome_of
              (try_get_partition L false AssociatedTrait_AttrIndex "trait.attribute"
                 (set_trait_declaration_attributes (Some ∅) self))
              (blob_ (set_trait_declaration_attributes (Some ∅) self)))
      with (outcome_of
              (try_get_partition L false AssociatedTrait_AttrIndex "trait.attribute"
                 self) (blob_ self)).
    rewrite Htry. reflexivity.
Qed.

(** ** The length of an accepted blob *)

Lemma extension_stable_ret {A} (a : A) : extension_stable (rd_ret a).
Proof. intros data extra a' H. exact H. Qed.

Lemma extension_stable_bind {A B} (m : Rd A) (k : A → Rd B) :
  extension_stable m → (∀ a, extension_stable (k a)) →
  extension_stable (rd_bind m k).
Proof.
  intros Hm Hk data extra b H. rewrite outcome_of_bind in H.
  apply outcome_bind_ok_inv in H as (a & Ha & Hb).
  rewrite outcome_of_bind, (Hm _ _ _ Ha). simpl. by apply Hk.
Qed.

(** [rd_blob] is used for the address of the blob only. *)
Lemma extension_stable_with_base {A} (k : Z → Rd A) :
  (∀ base, extension_stable (k base)) →
  extension_stable (rd_bind rd_blob (λ blob, k (blob_data blob))).
Proof.
  intros Hk data extra a H. rewrite outcome_of_bind in *. simpl in *.
  by apply Hk.
Qed.

Lemma extension_stable_read_byte off : extension_stable (read_byte off).
Proof.
  intros data extra c. unfold outcome_of, read_byte, extended. simpl.
  case_decide; [|discriminate].
  destruct (blob_bytes data !! Z.to_nat off) as [c'|] eqn:Hc; [|discriminate].
  intros [= <-]. by rewrite (lookup_app_l_Some _ _ _ _ Hc).
Qed.

Lemma extension_stable_mapM {A B} (f : A → Rd B) l :
  (∀ x, extension_stable (f x)) → extension_stable (rd_mapM f l).
Proof.
  intros Hf. induction l as [|x l IH]; simpl.
  - apply extension_stable_ret.
  - apply extension_stable_bind; [apply Hf|]. intros y.
    apply extension_stable_bind; [apply IH|]. intros ys.
    apply extension_stable_ret.
Qed.

Lemma extension_stable_foldM {A B} (f : A → B → Rd A) l a :
  (∀ a x, extension_stable (f a x)) → extension_stable (rd_foldM f a l).
Proof.
  intros Hf. revert a. induction l as [|x l IH]; intros a; simpl.
  - apply extension_stable_ret.
  - apply extension_stable_bind; [apply Hf|]. intros a'. apply IH.
Qed.

Lemma extension_stable_read_u32 off : extension_stable (read_u32 off).
Proof.
  unfold read_u32, read_bytes. apply extension_stable_bind.
  - apply extension_stable_mapM, extension_stable_read_byte.
  - intros bs. apply extension_stable_ret.
Qed.

Lemma extension_stable_load_u32 p : extension_stable (load_u32 p).
Proof.
  apply (extension_stable_with_base (λ base, read_u32 (p - base))).
  intros base. apply extension_stable_read_u32.
Qed.

Lemma extension_stable_get_pointer offset : extension_stable (get_pointer offset).
Proof.
  apply (extension_stable_with_base (λ base, rd_ret (base + offset))).
  intros base. apply extension_stable_ret.
Qed.

Lemma extension_stable_load_PartitionSummary partition :
  extension_stable (load_PartitionSummary L partition).
Proof.
  unfold load_PartitionSummary.
  repeat (apply extension_stable_bind; [apply extension_stable_load_u32|intros ?]).
  apply extension_stable_ret.
Qed.

Lemma extension_stable_table_of_contents : extension_stable (table_of_contents L).
Proof.
  unfold table_of_contents, header_field.
  apply extension_stable_bind; [apply extension_stable_read_u32|]. intros toc.
  apply extension_stable_bind; [apply extension_stable_get_pointer|]. intros p.
  apply extension_stable_bind; [apply extension_stable_read_u32|]. intros n.
  apply extension_stable_ret.
Qed.

Lemma extension_stable_calc_size : extension_stable (calc_size L).
Proof.
  unfold calc_size, header_field.
  apply extension_stable_bind; [apply extension_stable_read_u32|]. intros sts.
  apply extension_stable_bind; [apply extension_stable_table_of_contents|].
  intros toc. apply extension_stable_foldM. intros result partition.
  unfold partition_size_bytes.
  apply extension_stable_bind; [|intros n; apply extension_stable_ret].
  apply extension_stable_bind; [apply extension_stable_load_PartitionSummary|].
  intros d. apply extension_stable_ret.
Qed.

Lemma extension_stable_structure_signature : extension_stable structure_signature.
Proof. apply extension_stable_mapM, extension_stable_read_byte. Qed.

Lemma Impl_ctor_ok_signature data self :
  outcome_of (Impl_ctor L) data = Ok self →
  outcome_of structure_signature data = Ok CANONICAL_FILE_SIGNATURE
  ∧ outcome_of (calc_size L) data = Ok (blob_size data).
Proof.
  intros H. split; [|by apply Impl_ctor_ok_inv in H as (? & ? & ? & _)].
  unfold Impl_ctor in H.
  rewrite outcome_of_bind in H. apply outcome_bind_ok_inv in H as (sig & Hsig & H).
  destruct (decide (sig ≠ CANONICAL_FILE_SIGNATURE)) as [|Heq]; [discriminate|].
  apply dec_stable in Heq. by subst sig.
Qed.

(** X10. The size check pins the length: a blob that the constructor accepts
    is rejected with [runtime_error("corrupted file")] as soon as any bytes
    are appended to it, and so no accepted blob is a proper prefix of another
    accepted blob; cutting bytes off the end of an accepted blob never gives
    an accepted blob. *)
Theorem accepted_length_is_unique (data : BlobView) (extra : list byte) :
  extra ≠ [] →
  (∀ self, fst (File_ctor L data) = Ok self →
     fst (File_ctor L (extended data extra)) = Throw (runtime_error "corrupted file"))
  ∧ (∀ self', fst (File_ctor L (extended data extra)) = Ok self' →
     ∀ self, fst (File_ctor L data) ≠ Ok self).
Proof.
  intros Hextra.
  assert (Hlonger : ∀ self, fst (File_ctor L data) = Ok self →
    fst (File_ctor L (extended data extra)) = Throw (runtime_error "corrupted file")).
  { intros self H. apply Impl_ctor_ok_signature in H as (Hsig & Hsize).
    change (fst (File_ctor L (extended data extra)))
      with (outcome_of (Impl_ctor L) (extended data extra)).
    unfold Impl_ctor.
    rewrite outcome_of_bind.
    rewrite (extension_stable_structure_signature _ extra _ Hsig). simpl.
    destruct (decide (CANONICAL_FILE_SIGNATURE ≠ CANONICAL_FILE_SIGNATURE)); [done|].
    rewrite outcome_of_bind, (extension_stable_calc_size _ extra _ Hsize). simpl.
    rewrite outcome_of_bind, outcome_of_blob. simpl.
    destruct (decide (blob_size data ≠ blob_size (extended data extra)))
      as [|Heq]; [reflexivity|].
    exfalso. apply Heq. unfold blob_size, extended. simpl.
    rewrite length_app. destruct extra; [done|]. simpl. lia. }
  split; [exact Hlonger|].
  intros self' Hlong self Hshort. apply Hlonger in Hshort. congruence.
Qed.

(** ** Resolving a name on an opened file *)

Lemma calc_size_loop_inv blob partitions acc n :
  outcome_of
    (rd_foldM
       (λ result partition,
          let* x := partition_size_bytes L partition in
          rd_ret (wrap_size_t (result + x)))
       acc partitions) blob = Ok n →
  ∃ ds, outcome_of (rd_mapM (load_PartitionSummary L) partitions) blob = Ok ds.
Proof.
  revert acc. induction partitions as [|partition partitions IH]; intros acc H.
  - exists []. reflexivity.
  - simpl in H. rewrite outcome_of_bind in H.
    apply outcome_bind_ok_inv in H as (acc' & Hacc & H).
    rewrite outcome_of_bind in Hacc.
    apply outcome_bind_ok_inv in Hacc as (x & Hx & _).
    unfold partition_size_bytes in Hx. rewrite outcome_of_bind in Hx.
    apply outcome_bind_ok_inv in Hx as (d & Hd & _).
    apply IH in H as (ds & Hds). exists (d :: ds).
    simpl. rewrite outcome_of_bind, Hd. simpl.
    rewrite outcome_of_bind, Hds. reflexivity.
Qed.

Lemma calc_size_ok_inv blob n :
  outcome_of (calc_size L) blob = Ok n →
  ∃ toc ds,
    outcome_of (table_of_contents L) blob = Ok toc
    ∧ outcome_of (rd_mapM (load_PartitionSummary L) (toc_elements L toc)) blob = Ok ds.
Proof.
  unfold calc_size. intros H.
  rewrite outcome_of_bind in H. apply outcome_bind_ok_inv in H as (sts & _ & H).
  rewrite outcome_of_bind in H. apply outcome_bind_ok_inv in H as (toc & Htoc & H).
  apply calc_size_loop_inv in H as (ds & Hds). eauto.
Qed.

Lemma rd_mapM_lookup {A B} (f : A → Rd B) l blob ys (i : nat) x :
  outcome_of (rd_mapM f l) blob = Ok ys →
  l !! i = Some x →
  ∃ y, ys !! i = Some y ∧ outcome_of (f x) blob = Ok y.
Proof.
  revert ys i. induction l as [|x0 l IH]; intros ys i H Hi; [discriminate|].
  apply rd_mapM_cons_inv in H as (y & ys' & Hy & Hys & ->).
  destruct i as [|i]; simpl in *.
  - injection Hi as <-. eauto.
  - eapply IH; eauto.
Qed.

(** In the name map a name stands for the first descriptor that bears it. *)
Lemma list_to_map_zip_first (names : list string) (elems : list Z) (name : string) :
  length names = length elems →
  (list_to_map (zip names elems) : gmap string Z) !! name
  = first_named name names ≫= (elems !!.).
Proof.
  unfold first_named. revert elems.
  induction names as [|n names IH]; intros [|e elems] Hlen; try discriminate.
  - reflexivity.
  - simpl. destruct (decide (n = name)) as [->|Hne].
    + by rewrite lookup_insert_eq.
    + rewrite lookup_insert_ne by done. rewrite IH by (simpl in Hlen; lia).
      destruct (list_find (λ n0, n0 = name) names) as [[i x]|]; reflexivity.
Qed.

(** X11. On an opened file a name stands for the first descriptor of the
    table of contents whose resolved name it is: [get_partition(name)]
    returns that descriptor's [(blob.base + offset, cardinality)] (or fails
    its assertion on an entry-size mismatch in a debug build), with the data
    pointer [get_data_pointer] gives for that descriptor; when no descriptor
    bears the name, [get_partition] ends in [out_of_range] and
    [try_get_partition] in [nullopt]. *)
Theorem get_partition_after_open {V} (T : RecordType V) (data : BlobView)
    (self : Impl) (name : string) :
  fst (File_ctor L data) = Ok self →
  ∃ toc names ds,
    outcome_of (table_of_contents L) data = Ok toc
    ∧ outcome_of (rd_mapM (partition_name L) (toc_elements L toc)) data = Ok names
    ∧ outcome_of (rd_mapM (load_PartitionSummary L) (toc_elements L toc)) data = Ok ds
    ∧ match first_named name names with
      | None =>
          outcome_of (get_partition L NDEBUG T name self) data = Throw out_of_range
          ∧ outcome_of (try_get_partition L NDEBUG T name self) data = Ok None
      | Some i =>
          ∃ d, ds !! i = Some d
               ∧ outcome_of (get_partition L NDEBUG T name self) data
                 = (if NDEBUG || bool_decide (ps_entry_size d = sizeof_T T)
                    then Ok (resolved data d)
                    else AssertFailed)
               ∧ outcome_of (File_get_data_pointer d) data
                 = Ok (p_data (resolved data d))
      end.
Proof.
  intros H.
  pose proof (Impl_ctor_ok_inv _ _ _ H) as (toc & m & Hsize & Htoc & Hm & ->).
  apply calc_size_ok_inv in Hsize as (toc' & ds & Htoc' & Hds).
  rewrite Htoc in Htoc'. injection Htoc' as <-.
  apply toc_insert_loop in Hm as (names & Hnames & ->).
  exists toc, names, ds.
  split; [exact Htoc|]. split; [exact Hnames|]. split; [exact Hds|].
  pose proof (rd_mapM_length _ _ _ _ Hnames) as Hlen.
  pose proof (list_to_map_zip_first names (toc_elements L toc) name Hlen) as Hfirst.
  unfold get_partition, try_get_partition. simpl.
  rewrite emplace_foldl, (left_id_L ∅ (∪)), Hfirst.
  destruct (first_named name names) as [i|] eqn:Hi; simpl.
  - assert (Hlt : (i < length (toc_elements L toc))%nat).
    { unfold first_named in Hi.
      destruct (list_find _ names) as [[j x]|] eqn:Hfind; [|discriminate].
      injection Hi as <-. apply list_find_Some in Hfind as (Hj & _).
      rewrite <- Hlen. eapply lookup_lt_Some. exact Hj. }
    apply lookup_lt_is_Some in Hlt as (partition & Hp). rewrite Hp. simpl.
    destruct (rd_mapM_lookup _ _ _ _ _ _ Hds Hp) as (d & Hd & Hload).
    exists d. split; [exact Hd|]. split; [|reflexivity].
    rewrite (get_partition_at_outcome L NDEBUG T _ _ _ Hload).
    destruct NDEBUG; simpl; [reflexivity|].
    destruct (decide (ps_entry_size d = sizeof_T T)) as [e|n].
    + by rewrite (bool_decide_eq_true_2 _ e).
    + by rewrite (bool_decide_eq_false_2 _ n).
  - split; reflexivity.
Qed.

(** X13. A trait query that succeeds changes nothing but its own map: the
    blob, the name map, the cache table and the two other trait maps are as
    before, for each of the three kinds of query. *)
Theorem trait_query_changes_only_its_map :
  (∀ d r self self',
     File_trait_declaration_attributes L NDEBUG AssociatedTrait_AttrIndex d self
     = (Ok r, self') →
     blob_ self' = blob_ self
     ∧ table_of_contents_ self' = table_of_contents_ self
     ∧ cached_partitions_ self' = cached_partitions_ self
     ∧ trait_deprecation_texts_ self' = trait_deprecation_texts_ self
     ∧ trait_friendship_of_class_ self' = trait_friendship_of_class_ self)
  ∧ (∀ d r self self',
       File_trait_deprecation_texts L NDEBUG AssociatedTrait_TextOffset d self
       = (Ok r, self') →
       blob_ self' = blob_ self
       ∧ table_of_contents_ self' = table_of_contents_ self
       ∧ cached_partitions_ self' = cached_partitions_ self
       ∧ trait_declaration_attributes_ self' = trait_declaration_attributes_ self
       ∧ trait_friendship_of_class_ self' = trait_friendship_of_class_ self)
  ∧ (∀ d r self self',
       File_trait_friendship_of_class L NDEBUG AssociatedTrait_Sequence d self
       = (Ok r, self') →
       blob_ self' = blob_ self
       ∧ table_of_contents_ self' = table_of_contents_ self
       ∧ cached_partitions_ self' = cached_partitions_ self
       ∧ trait_declaration_attributes_ self' = trait_declaration_attributes_ self
       ∧ trait_deprecation_texts_ self' = trait_deprecation_texts_ self).
Proof.
  split; [|split]; intros d r self self' H.
  - unfold File_trait_declaration_attributes in H.
    apply st_bind_ok_inv in H as (m & s1 & Hm & [= _ <-]).
    destruct (trait_declaration_attributes_ self) as [m0|] eqn:Hc.
    + unfold Impl_trait_declaration_attributes in Hm. rewrite Hc in Hm.
      by injection Hm as _ <-.
    + by apply Impl_trait_declaration_attributes_inv in Hm as (? & ? & _ & _ & _ & ->).
  - unfold File_trait_deprecation_texts in H.
    apply st_bind_ok_inv in H as (m & s1 & Hm & [= _ <-]).
    destruct (trait_deprecation_texts_ self) as [m0|] eqn:Hc.
    + unfold Impl_trait_deprecation_texts in Hm. rewrite Hc in Hm.
      by injection Hm as _ <-.
    + by apply Impl_trait_deprecation_texts_inv in Hm as (? & _ & _ & ->).
  - unfold File_trait_friendship_of_class in H.
    apply st_bind_ok_inv in H as (m & s1 & Hm & [= _ <-]).
    destruct (trait_friendship_of_class_ self) as [m0|] eqn:Hc.
    + unfold Impl_trait_friendship_of_class in Hm. rewrite Hc in Hm.
      by injection Hm as _ <-.
    + by apply Impl_trait_friendship_of_class_inv in Hm as (? & _ & _ & ->).
Qed.

(** ** The smallest file, and a table of contents that leaves the blob *)

(** X14. A blob that is just the signature and a header announcing no
    partition and an empty string table is accepted; its name map is empty,
    so every [get_partition] throws [out_of_range] and every
    [try_get_partition] answers [nullopt]. *)
Theorem open_minimal_file {V} (T : RecordType V) (data : BlobView) (toc : Z)
    (name : string) :
  take 4 (blob_bytes data) = CANONICAL_FILE_SIGNATURE →
  outcome_of (header_field (offsetof_string_table_size L)) data = Ok 0 →
  outcome_of (header_field (offsetof_toc L)) data = Ok toc →
  outcome_of (header_field (offsetof_partition_count L)) data = Ok 0 →
  blob_size data = sizeof_Structure L →
  sizeof_Structure L < 2 ^ size_t_bits →
  ∃ self,
    fst (File_ctor L data) = Ok self
    ∧ blob_ self = data
    ∧ table_of_contents_ self = ∅
    ∧ get_partition L NDEBUG T name self data = (Throw out_of_range, [])
    ∧ try_get_partition L NDEBUG T name self data = (Ok None, []).
Proof.
  intros Hsig Hsts Htoc Hcount Hlen Hfit.
  assert (Hcalc : outcome_of (calc_size L) data = Ok (blob_size data)).
  { rewrite (outcome_of_calc_size L data 0 toc 0 [] Hsts Htoc Hcount eq_refl).
    f_equal. unfold expected_size. rewrite Hlen. unfold sizeof_Structure. simpl.
    rewrite Z.add_0_r, Z.add_0_r, Z.add_0_r. apply wrap_size_t_small.
    unfold sizeof_Structure in *. unfold blob_size in Hlen. lia. }
  eexists. split.
  - change (fst (File_ctor L data)) with (outcome_of (Impl_ctor L) data).
    rewrite (outcome_of_Impl_ctor L data _ Hsig Hcalc).
    destruct (decide (blob_size data ≠ blob_size data)); [done|].
    rewrite (outcome_of_table_of_contents L data toc 0 Htoc Hcount). reflexivity.
  - repeat split.
Qed.

Lemma never_throws_calc_size : never_throws (calc_size L).
Proof.
  unfold calc_size, header_field.
  apply never_throws_bind; [apply never_throws_read_u32|]. intros sts.
  apply never_throws_bind; [apply never_throws_table_of_contents|]. intros toc.
  apply never_throws_foldM. intros result partition.
  apply never_throws_bind; [|intros; apply never_throws_ret].
  unfold partition_size_bytes.
  apply never_throws_bind; [|intros; apply never_throws_ret].
  unfold load_PartitionSummary.
  repeat (apply never_throws_bind; [apply never_throws_load_u32|intros ?]).
  apply never_throws_ret.
Qed.

Lemma read_u32_ok_bounds blob off v :
  outcome_of (read_u32 off) blob = Ok v → 0 ≤ off ∧ off + 4 ≤ blob_size blob.
Proof.
  unfold read_u32, read_bytes. intros H.
  rewrite outcome_of_bind in H. apply outcome_bind_ok_inv in H as (bs & H & _).
  apply rd_mapM_cons_inv in H as (b0 & l0 & H0 & H & _).
  apply rd_mapM_cons_inv in H as (b1 & l1 & _ & H & _).
  apply rd_mapM_cons_inv in H as (b2 & l2 & _ & H & _).
  apply rd_mapM_cons_inv in H as (b3 & l3 & H3 & _ & _).
  unfold outcome_of, read_byte in H0, H3. simpl in H0, H3.
  repeat case_decide; try discriminate.
  destruct (blob_bytes blob !! Z.to_nat (off + Z.of_nat 3)) eqn:Hb; [|discriminate].
  apply lookup_lt_Some in Hb. unfold blob_size. lia.
Qed.

(** X15. The table of contents is walked before the length is compared, and
    without a bounds check: when the header places the [entry_size] field of
    one of the announced descriptors past the end of the blob, the
    constructor does not end in the corrupted-file error but reads outside
    the blob. *)
Theorem toc_outside_blob_is_read (data : BlobView) (toc : TocSpan) (i : nat) :
  take 4 (blob_bytes data) = CANONICAL_FILE_SIGNATURE →
  outcome_of (table_of_contents L) data = Ok toc →
  (i < Z.to_nat (toc_count toc))%nat →
  blob_size data
  < toc_data toc - blob_data data + Z.of_nat i * sizeof_PartitionSummary L
    + offsetof_entry_size L + 4 →
  fst (File_ctor L data) = Undefined.
Proof.
  intros Hsig Htoc Hi Hout.
  assert (Hlen : 4 ≤ blob_size data).
  { unfold blob_size. pose proof (f_equal length Hsig) as Hl.
    rewrite length_take in Hl. unfold CANONICAL_FILE_SIGNATURE in Hl.
    cbn [length] in Hl. lia. }
  assert (Hnot : ∀ n, outcome_of (calc_size L) data ≠ Ok n).
  { intros n Hn. apply calc_size_ok_inv in Hn as (toc' & ds & Htoc' & Hds).
    rewrite Htoc in Htoc'. injection Htoc' as <-.
    assert (Hp : toc_elements L toc !! i
                 = Some (toc_data toc + Z.of_nat i * sizeof_PartitionSummary L)).
    { unfold toc_elements, span_elements. rewrite list_lookup_fmap.
      by rewrite lookup_seq_lt. }
    destruct (rd_mapM_lookup _ _ _ _ _ _ Hds Hp) as (d & _ & Hload).
    apply load_PartitionSummary_fields in Hload as (_ & _ & _ & He).
    rewrite outcome_of_load_u32 in He. apply read_u32_ok_bounds in He. lia. }
  pose proof (never_throws_calc_size data) as Hnever.
  change (fst (File_ctor L data)) with (outcome_of (Impl_ctor L) data).
  unfold Impl_ctor. rewrite outcome_of_bind.
  unfold outcome_of at 1. rewrite (structure_signature_run data Hlen). simpl.
  rewrite Hsig.
  destruct (decide (CANONICAL_FILE_SIGNATURE ≠ CANONICAL_FILE_SIGNATURE)); [done|].
  rewrite outcome_of_bind.
  destruct (outcome_of (calc_size L) data) as [size| | |] eqn:Hcalc;
    [by destruct (Hnot size)|done|done|reflexivity].
Qed.

(** ** The cached accessors against the uncached resolution *)

Variable V : Type.
Variable T_of : FilePartitionCache.t → RecordType V.

Local Abbreviation accessor := (File_cached_accessor L NDEBUG V T_of).
Local Abbreviation name_of := (accessor_partition_name V T_of).
Local Abbreviation coherent := (cache_coherent L NDEBUG V T_of).
Local Abbreviation cstep :=
  (Catalogue_step L NDEBUG AssociatedTrait_AttrIndex AssociatedTrait_TextOffset
     AssociatedTrait_Sequence V T_of).
Local Abbreviation creachable :=
  (Catalogue_reachable L NDEBUG AssociatedTrait_AttrIndex AssociatedTrait_TextOffset
     AssociatedTrait_Sequence V T_of).
Local Abbreviation cinv := (Catalogue_inv L NDEBUG V T_of).

Lemma File_cached_accessor_unfold slot :
  accessor slot = get_and_cache_partition L NDEBUG (T_of slot) (name_of slot) slot.
Proof.
  unfold File_cached_accessor, accessor_partition_name,
    get_and_cache_partition_canonical.
  by destruct (explicit_name slot).
Qed.

Lemma get_and_cache_partition_shape {W} (T : RecordType W) name slot self o self' :
  get_and_cache_partition L NDEBUG T name slot self = (o, self') →
  self' = self
  ∨ ∃ result,
      outcome_of (get_partition L NDEBUG T name self) (blob_ self) = Ok result
      ∧ self' = set_cached_partitions
                  (<[FilePartitionCache.cache_index slot :=
                       Some {| up_data := p_data result; up_size := p_size result |}]>
                     (cached_partitions_ self)) self.
Proof.
  unfold get_and_cache_partition.
  destruct (cached_partitions_ self !! FilePartitionCache.cache_index slot)
    as [[u|]|].
  - intros [= _ <-]. by left.
  - destruct (get_partition L NDEBUG T name self (blob_ self)).1 as [result| | |]
      eqn:Hres; intros [= _ <-]; [|by left..].
    right. exists result. split; [exact Hres|reflexivity].
  - intros [= _ <-]. by left.
Qed.

Lemma trait_query_shape self self' :
  (∃ d r, File_trait_declaration_attributes L NDEBUG AssociatedTrait_AttrIndex d self
          = (Ok r, self'))
  ∨ (∃ d r, File_trait_deprecation_texts L NDEBUG AssociatedTrait_TextOffset d self
            = (Ok r, self'))
  ∨ (∃ d r, File_trait_friendship_of_class L NDEBUG AssociatedTrait_Sequence d self
            = (Ok r, self')) →
  blob_ self' = blob_ self
  ∧ table_of_contents_ self' = table_of_contents_ self
  ∧ cached_partitions_ self' = cached_partitions_ self.
Proof.
  intros [(d & r & H)|[(d & r & H)|(d & r & H)]].
  - unfold File_trait_declaration_attributes in H.
    apply st_bind_ok_inv in H as (m & s1 & Hm & [= _ <-]).
    destruct (trait_declaration_attributes_ self) as [m0|] eqn:Hc.
    + unfold Impl_trait_declaration_attributes in Hm. rewrite Hc in Hm.
      by injection Hm as _ <-.
    + by apply Impl_trait_declaration_attributes_inv in Hm as (? & ? & _ & _ & _ & ->).
  - unfold File_trait_deprecation_texts in H.
    apply st_bind_ok_inv in H as (m & s1 & Hm & [= _ <-]).
    destruct (trait_deprecation_texts_ self) as [m0|] eqn:Hc.
    + unfold Impl_trait_deprecation_texts in Hm. rewrite Hc in Hm.
      by injection Hm as _ <-.
    + by apply Impl_trait_deprecation_texts_inv in Hm as (? & _ & _ & ->).
  - unfold File_trait_friendship_of_class in H.
    apply st_bind_ok_inv in H as (m & s1 & Hm & [= _ <-]).
    destruct (trait_friendship_of_class_ self) as [m0|] eqn:Hc.
    + unfold Impl_trait_friendship_of_class in Hm. rewrite Hc in Hm.
      by injection Hm as _ <-.
    + by apply Impl_trait_friendship_of_class_inv in Hm as (? & _ & _ & ->).
Qed.

Lemma cinv_frame data self self' :
  blob_ self' = blob_ self →
  table_of_contents_ self' = table_of_contents_ self →
  cached_partitions_ self' = cached_partitions_ self →
  cinv data self → cinv data self'.
Proof.
  intros Hb Ht Hc (Hblob & Hlen & Hcoh).
  split; [congruence|]. split; [congruence|].
  intros slot u Hu. unfold get_partition. rewrite Ht, Hb.
  apply Hcoh. by rewrite <- Hc.
Qed.

Lemma cinv_accessor data self self' slot o :
  accessor slot self = (o, self') → cinv data self → cinv data self'.
Proof.
  rewrite File_cached_accessor_unfold. intros H Hinv.
  apply get_and_cache_partition_shape in H as [->|(result & Hres & ->)];
    [exact Hinv|].
  destruct Hinv as (Hblob & Hlen & Hcoh).
  split; [exact Hblob|]. split; [simpl; by rewrite length_insert|].
  intros slot' u. simpl.
  destruct (decide (FilePartitionCache.cache_index slot'
                    = FilePartitionCache.cache_index slot)) as [Heq|Hne].
  - apply cache_index_inj in Heq as ->.
    rewrite list_lookup_insert_eq
      by (rewrite Hlen; destruct slot; vm_compute; lia).
    intros [= <-]. destruct result. exact Hres.
  - rewrite list_lookup_insert_ne by done. apply Hcoh.
Qed.

Lemma cinv_step data self self' : cstep self self' → cinv data self → cinv data self'.
Proof.
  intros [slot s p s' H|slot s e s' H|d s r s' H|d s r s' H|d s r s' H] Hinv.
  - eapply cinv_accessor; eauto.
  - eapply cinv_accessor; eauto.
  - destruct (trait_query_shape s s') as (Hb & Ht & Hc); [eauto 6|].
    eapply cinv_frame; eauto.
  - destruct (trait_query_shape s s') as (Hb & Ht & Hc); [eauto 6|].
    eapply cinv_frame; eauto.
  - destruct (trait_query_shape s s') as (Hb & Ht & Hc); [eauto 6|].
    eapply cinv_frame; eauto.
Qed.

Lemma creachable_inv data self : creachable data self → cinv data self.
Proof.
  intros (self0 & Hopen & Hsteps).
  assert (Hinit : cinv data self0).
  { apply Impl_ctor_ok_inv in Hopen as (toc & m & _ & _ & _ & ->).
    split; [reflexivity|]. split; [apply length_replicate|].
    intros slot u Hu. cbn [cached_partitions_] in Hu.
    apply lookup_replicate in Hu as (Hu & _). discriminate Hu. }
  clear Hopen. induction Hsteps as [|s1 s2 s3 Hstep _ IH]; [exact Hinit|].
  apply IH. eapply cinv_step; eauto.
Qed.

(** X12. The cache is transparent: in every state of a file that was opened
    and then used through the cached accessors of the catalogue and the
    trait queries, each cached accessor ends exactly as the uncached
    [get_partition] under its partition name would (same partition, same
    exception, same failed assertion), whether its slot is filled or not. *)
Theorem cached_accessor_is_transparent (data : BlobView) (self : Impl)
    (slot : FilePartitionCache.t) :
  creachable data self →
  fst (accessor slot self)
  = outcome_of (get_partition L NDEBUG (T_of slot) (name_of slot) self) data.
Proof.
  intros Hreach. apply creachable_inv in Hreach as (Hblob & Hlen & Hcoh).
  rewrite File_cached_accessor_unfold. unfold get_and_cache_partition.
  assert (Hslot : is_Some
    (cached_partitions_ self !! FilePartitionCache.cache_index slot)).
  { apply lookup_lt_is_Some. rewrite Hlen. destruct slot; vm_compute; lia. }
  destruct Hslot as ([u|] & Hslot); rewrite Hslot.
  - simpl. rewrite <- Hblob. symmetry. by apply Hcoh.
  - rewrite <- Hblob. unfold outcome_of.
    by destruct (get_partition L NDEBUG (T_of slot) (name_of slot) self
                   (blob_ self)).1.
Qed.

End ReaderCoverage.

(** * The scenarios, run *)

Example attributes_blob_opens :
  fst (File_ctor sample_layout attributes_blob) = Ok attributes_file.
Proof. vm_compute. reflexivity. Qed.

Example scenario_S1 :
  outcome_map table_of_contents_ (fst (File_ctor sample_layout minimal_blob)) = Ok ∅
  ∧ outcome_of (table_of_contents sample_layout) minimal_blob
    = Ok {| toc_data := 4096 + 76; toc_count := 0 |}.
Proof. split; vm_compute; reflexivity. Qed.

Example scenario_S2 :
  fst (File_ctor sample_layout bad_signature_blob)
  = Throw (invalid_argument "corrupted file signature").
Proof. vm_compute. reflexivity. Qed.

Example scenario_S4 :
  ∃ self, fst (File_ctor sample_layout scenario_S4_blob) = Ok self
    ∧ fst (File_trait_declaration_attributes sample_layout false
             sample_AttrIndex_trait 7 self) = Ok [11; 22].
Proof. eexists. split; vm_compute; reflexivity. Qed.

Example longer_blob_rejected :
  fst (File_ctor sample_layout
         {| blob_data := 4096;
            blob_bytes := blob_bytes attributes_blob ++ [x00] |})
  = Throw (runtime_error "corrupted file").
Proof. vm_compute. reflexivity. Qed.

(** [calc_size] walks the table of contents before the length is compared:
    on a blob cut short inside the table the walk leaves the blob. *)
Example truncated_blob_overread :
  fst (File_ctor sample_layout
         {| blob_data := 4096;
            blob_bytes := take 187 (blob_bytes attributes_blob) |})
  = Undefined.
Proof. vm_compute. reflexivity. Qed.

(** The constructor accepts a table of contents that lists a name twice; the
    map then holds the first of the two descriptors only. *)
Example duplicate_names_keep_first :
  outcome_map (λ self, (size (table_of_contents_ self),
                        table_of_contents_ self !! "trait.attribute"))
    (fst (File_ctor sample_layout duplicate_names_blob))
  = Ok (1%nat, Some (4096 + 109)).
Proof. vm_compute. reflexivity. Qed.

(** * Instances of the theorems on the fixtures *)

Lemma open_rejects_bad_signature_witness :
  fst (File_ctor sample_layout bad_signature_blob)
  = Throw (invalid_argument "corrupted file signature")
  ∧ snd (File_ctor sample_layout bad_signature_blob)
    = [ReadByte 0; ReadByte 1; ReadByte 2; ReadByte 3]
  ∧ ∀ e, e ∈ snd (File_ctor sample_layout bad_signature_blob) →
      ∃ off, e = ReadByte off ∧ 0 ≤ off < 4.
Proof.
  apply (open_rejects_bad_signature sample_layout bad_signature_blob).
  - vm_compute. discriminate.
  - vm_compute. discriminate.
Defined.

Lemma open_size_check_witness :
  (outcome_of (calc_size sample_layout) attributes_blob = Ok 188
   ∧ ¬ fst (File_ctor sample_layout attributes_blob)
       = Throw (runtime_error "corrupted file"))
  ∧ (outcome_of (calc_size sample_layout) (extended attributes_blob [x00]) = Ok 188
     ∧ fst (File_ctor sample_layout (extended attributes_blob [x00]))
       = Throw (runtime_error "corrupted file")).
Proof.
  split.
  - destruct (open_size_check sample_layout attributes_blob 40 156 2
                [ {| ps_name := 1; ps_offset := 116;
                     ps_cardinality := 3; ps_entry_size := 8 |};
                  {| ps_name := 17; ps_offset := 140;
                     ps_cardinality := 2; ps_entry_size := 8 |} ])
      as (Hcalc & _ & Hiff).
    + reflexivity.
    + vm_compute. reflexivity.
    + vm_compute. reflexivity.
    + vm_compute. reflexivity.
    + vm_compute. reflexivity.
    + split; [exact Hcalc|].
      intros Hthrow. apply Hiff in Hthrow. apply Hthrow. vm_compute. reflexivity.
  - destruct (open_size_check sample_layout (extended attributes_blob [x00]) 40 156 2
                [ {| ps_name := 1; ps_offset := 116;
                     ps_cardinality := 3; ps_entry_size := 8 |};
                  {| ps_name := 17; ps_offset := 140;
                     ps_cardinality := 2; ps_entry_size := 8 |} ])
      as (Hcalc & _ & Hiff).
    + reflexivity.
    + vm_compute. reflexivity.
    + vm_compute. reflexivity.
    + vm_compute. reflexivity.
    + vm_compute. reflexivity.
    + split; [exact Hcalc|].
      apply Hiff. vm_compute. discriminate.
Defined.

(** C2 as the claim states it, for every blob that passes the signature
    check, fails on [truncated_attributes_blob]: the blob has the signature
    and the header of [attributes_blob] and lacks the last byte of the
    [entry_size] field of its second descriptor. [calc_size] computes no
    size there, and the constructor neither throws the corrupted-file error
    nor returns: it reads the byte after the blob. *)
Lemma open_size_check_counterexample :
  take 4 (blob_bytes truncated_attributes_blob) = CANONICAL_FILE_SIGNATURE
  ∧ blob_size truncated_attributes_blob = 187
  ∧ outcome_of (calc_size sample_layout) truncated_attributes_blob = Undefined
  ∧ fst (File_ctor sample_layout truncated_attributes_blob) = Undefined
  ∧ ¬ (∃ size,
         outcome_of (calc_size sample_layout) truncated_attributes_blob = Ok size
         ∧ (fst (File_ctor sample_layout truncated_attributes_blob)
            = Throw (runtime_error "corrupted file")
            ↔ size ≠ blob_size truncated_attributes_blob)).
Proof.
  assert (Hcalc : outcome_of (calc_size sample_layout) truncated_attributes_blob
                  = Undefined) by (vm_compute; reflexivity).
  split; [reflexivity|]. split; [vm_compute; reflexivity|].
  split; [exact Hcalc|]. split; [vm_compute; reflexivity|].
  intros (size & Hsize & _). rewrite Hcalc in Hsize. discriminate.
Defined.

Lemma get_partition_contract_witness :
  outcome_of
    (get_partition sample_layout false sample_AttrIndex_trait "trait.attribute"
       attributes_file) attributes_blob
  = Ok {| p_data := 4096 + 116; p_size := 3 |}.
Proof.
  apply (get_partition_contract sample_layout false sample_AttrIndex_trait
           attributes_file "trait.attribute" 4252
           {| ps_name := 1; ps_offset := 116;
              ps_cardinality := 3; ps_entry_size := 8 |}).
  - vm_compute. reflexivity.
  - vm_compute. reflexivity.
Defined.

Lemma accessor_cache_idempotent_witness :
  ∃ p self',
    call_accessor sample_layout false
      (ExplicitName sample_AttrIndex_trait "trait.attribute"
         FilePartitionCache.TypeHeap) attributes_file = (Ok p, self')
    ∧ call_accessor sample_layout false
        (ExplicitName sample_AttrIndex_trait "trait.attribute"
           FilePartitionCache.TypeHeap) self' = (Ok p, self').
Proof.
  eexists _, _. split.
  - vm_compute. reflexivity.
  - apply (proj1 (accessor_cache_idempotent sample_layout false) _ attributes_file).
    vm_compute. reflexivity.
Defined.

Lemma declaration_attributes_order_witness :
  ∃ self',
    File_trait_declaration_attributes sample_layout false sample_AttrIndex_trait 7
      attributes_file
    = (Ok [101; 103; 102; 101], self').
Proof.
  destruct (declaration_attributes_order sample_layout false sample_AttrIndex_trait
              sample_TextOffset_trait sample_Sequence_trait
              attributes_blob attributes_file 7
              [(7, 101); (3, 55); (7, 103)] [(7, 102); (7, 101)])
    as (self' & Hrun & _).
  - exists attributes_file. split; [vm_compute; reflexivity | apply rtc_refl].
  - vm_compute. reflexivity.
  - vm_compute. reflexivity.
  - exists self'. exact Hrun.
Defined.

Lemma missing_deprecation_partition_witness :
  ∃ self',
    File_trait_deprecation_texts sample_layout false sample_TextOffset_trait 7
      attributes_file
    = (Ok 0, self').
Proof.
  destruct (missing_deprecation_partition sample_layout false sample_AttrIndex_trait
              sample_TextOffset_trait sample_Sequence_trait
              attributes_blob attributes_file) as (Hquery & _).
  - exists attributes_file. split; [vm_compute; reflexivity | apply rtc_refl].
  - vm_compute. reflexivity.
  - destruct (Hquery 7) as (self' & Hrun & _). exists self'. exact Hrun.
Defined.

Lemma try_get_versus_get_witness :
  (try_get_partition sample_layout false sample_TextOffset_trait "trait.deprecated"
     attributes_file attributes_blob = (Ok None, [])
   ∧ get_partition sample_layout false sample_TextOffset_trait "trait.deprecated"
       attributes_file attributes_blob = (Throw out_of_range, []))
  ∧ (outcome_of
       (get_partition sample_layout false sample_AttrIndex_trait "trait.attribute"
          attributes_file) attributes_blob
     = Ok {| p_data := 4096 + 116; p_size := 3 |}
     ∧ outcome_of
         (try_get_partition sample_layout false sample_AttrIndex_trait
            "trait.attribute" attributes_file) attributes_blob
       = Ok (Some {| p_data := 4096 + 116; p_size := 3 |})).
Proof.
  split.
  - apply (proj1 (try_get_versus_get sample_layout false sample_TextOffset_trait
                    attributes_file "trait.deprecated")).
    vm_compute. reflexivity.
  - apply (proj1 (proj2 (try_get_versus_get sample_layout false
                           sample_AttrIndex_trait attributes_file "trait.attribute"))
             4252 {| ps_name := 1; ps_offset := 116;
                     ps_cardinality := 3; ps_entry_size := 8 |}).
    + vm_compute. reflexivity.
    + vm_compute. reflexivity.
    + vm_compute. reflexivity.
Defined.

Lemma toc_name_map_witness :
  size (table_of_contents_ attributes_file) = 2%nat
  ∧ table_of_contents_ attributes_file !! "trait.attribute" = Some (4096 + 156)
  ∧ table_of_contents_ attributes_file !! ".msvc.trait.decl-attrs"
    = Some (4096 + 156 + 16).
Proof.
  destruct (toc_name_map sample_layout attributes_blob attributes_file)
    as (toc & names & Htoc & Hnames & _ & _ & Hunique).
  - vm_compute. reflexivity.
  - vm_compute in Htoc. injection Htoc as <-.
    vm_compute in Hnames. injection Hnames as <-.
    destruct Hunique as (Hsize & Hentry).
    + apply NoDup_cons. split; [|apply NoDup_singleton].
      intros Hin. apply list_elem_of_singleton in Hin. discriminate Hin.
    + split; [exact Hsize|]. split.
      * apply (Hentry 0%nat); reflexivity.
      * apply (Hentry 1%nat); reflexivity.
Defined.

Lemma imported_module_query_witness :
  env_queries
    (trace_of (File_get_imported_module sample_layout (λ name, name)
                 {| mr_owner := 0; mr_partition := 1 |}) imports_blob) = ["std"]
  ∧ env_queries
      (trace_of (File_get_imported_module sample_layout (λ name, name)
                   {| mr_owner := 5; mr_partition := 10 |}) imports_blob)
    = ["core:part"]
  ∧ env_queries
      (trace_of (File_get_imported_module sample_layout (λ name, name)
                   {| mr_owner := 5; mr_partition := 0 |}) imports_blob)
    = ["core"].
Proof.
  split; [|split].
  - apply (proj1 (imported_module_query sample_layout (λ name, name)
                    {| mr_owner := 0; mr_partition := 1 |} imports_blob)).
    + reflexivity.
    + vm_compute. reflexivity.
  - apply (proj1 (proj2 (imported_module_query sample_layout (λ name, name)
                           {| mr_owner := 5; mr_partition := 10 |} imports_blob))
             eq_refl eq_refl "core" "part").
    + vm_compute. reflexivity.
    + vm_compute. reflexivity.
  - apply (proj1 (proj2 (proj2 (imported_module_query sample_layout (λ name, name)
                                  {| mr_owner := 5; mr_partition := 0 |}
                                  imports_blob)))
             eq_refl eq_refl "core").
    vm_compute. reflexivity.
Defined.

Lemma get_string_is_unchecked_pointer_witness :
  get_string sample_layout 1000 attributes_blob
  = (Ok (4096 + 76 + 1000), [ReadByte 44; ReadByte 45; ReadByte 46; ReadByte 47]).
Proof.
  apply (get_string_is_unchecked_pointer sample_layout attributes_blob 1000 76).
  vm_compute. reflexivity.
Defined.

(** * Instances of the further properties *)

Example deprecations_blob_opens :
  fst (File_ctor sample_layout deprecations_blob) = Ok deprecations_file.
Proof. vm_compute. reflexivity. Qed.

Lemma cache_hit_ignores_name_and_type_witness :
  ∃ p self',
    get_and_cache_partition sample_layout false sample_AttrIndex_trait
      "trait.attribute" FilePartitionCache.AttrHeap attributes_file = (Ok p, self')
    ∧ get_and_cache_partition sample_layout false sample_Sequence_trait
        "no.such.partition" FilePartitionCache.AttrHeap self' = (Ok p, self').
Proof.
  eexists _, _. split.
  - vm_compute. reflexivity.
  - apply (cache_hit_ignores_name_and_type sample_layout false
             sample_AttrIndex_trait sample_Sequence_trait
             "trait.attribute" "no.such.partition" FilePartitionCache.AttrHeap
             attributes_file).
    vm_compute. reflexivity.
Defined.

Lemma failed_resolution_is_not_cached_witness :
  get_and_cache_partition sample_layout false sample_TextOffset_trait
    "trait.deprecated" FilePartitionCache.Declarations attributes_file
  = (Throw out_of_range, attributes_file)
  ∧ get_partition_with_cache sample_layout false sample_TextOffset_trait None
      "trait.deprecated" attributes_file = (Throw out_of_range, None).
Proof.
  apply (failed_resolution_is_not_cached sample_layout false sample_TextOffset_trait
           "trait.deprecated" FilePartitionCache.Declarations attributes_file).
  - vm_compute. reflexivity.
  - vm_compute. reflexivity.
Defined.

Lemma accessor_changes_only_its_slot_witness :
  table_of_contents_
    (snd (get_and_cache_partition sample_layout false sample_AttrIndex_trait
            "trait.attribute" FilePartitionCache.AttrHeap attributes_file))
  = table_of_contents_ attributes_file
  ∧ cached_partitions_
      (snd (get_and_cache_partition sample_layout false sample_AttrIndex_trait
              "trait.attribute" FilePartitionCache.AttrHeap attributes_file))
    !! FilePartitionCache.cache_index FilePartitionCache.TypeHeap
    = cached_partitions_ attributes_file
      !! FilePartitionCache.cache_index FilePartitionCache.TypeHeap.
Proof.
  destruct (accessor_changes_only_its_slot sample_layout false sample_AttrIndex_trait
              "trait.attribute" FilePartitionCache.AttrHeap attributes_file _ _
              (surjective_pairing _)) as (_ & Htoc & _ & _ & _ & _ & Hother).
  split; [exact Htoc | apply Hother; discriminate].
Defined.

Lemma deprecation_text_last_record_wins_witness :
  ∃ self',
    File_trait_deprecation_texts sample_layout false sample_TextOffset_trait 7
      deprecations_file = (Ok 22, self').
Proof.
  apply (deprecation_text_last_record_wins sample_layout false
           sample_AttrIndex_trait sample_TextOffset_trait sample_Sequence_trait
           deprecations_blob deprecations_file 7 [(7, 20); (3, 21); (7, 22)]).
  - exists deprecations_file. split; [vm_compute; reflexivity | apply rtc_refl].
  - vm_compute. reflexivity.
Defined.

Lemma friendship_last_record_wins_witness :
  (∃ self',
     File_trait_friendship_of_class sample_layout false sample_Sequence_trait 7
       deprecations_file = (Ok {| seq_start := 3; seq_cardinality := 4 |}, self'))
  ∧ (∃ self',
       File_trait_friendship_of_class sample_layout false sample_Sequence_trait 7
         attributes_file = (Ok {| seq_start := 0; seq_cardinality := 0 |}, self')).
Proof.
  split.
  - apply (proj1 (friendship_last_record_wins sample_layout false
                    sample_AttrIndex_trait sample_TextOffset_trait
                    sample_Sequence_trait deprecations_blob deprecations_file 7
                    (ex_intro _ deprecations_file
                       (conj deprecations_blob_opens (rtc_refl _ _))))
             [(7, {| seq_start := 1; seq_cardinality := 2 |});
              (7, {| seq_start := 3; seq_cardinality := 4 |})]).
    vm_compute. reflexivity.
  - apply (proj2 (friendship_last_record_wins sample_layout false
                    sample_AttrIndex_trait sample_TextOffset_trait
                    sample_Sequence_trait attributes_blob attributes_file 7
                    (ex_intro _ attributes_file
                       (conj attributes_blob_opens (rtc_refl _ _))))).
    vm_compute. reflexivity.
Defined.

Lemma attributes_without_partitions_witness :
  ∃ self',
    File_trait_declaration_attributes sample_layout false sample_AttrIndex_trait 7
      deprecations_file = (Ok [], self').
Proof.
  apply (attributes_without_partitions sample_layout false
           sample_AttrIndex_trait sample_TextOffset_trait sample_Sequence_trait
           deprecations_blob deprecations_file 7).
  - exists deprecations_file. split; [vm_compute; reflexivity | apply rtc_refl].
  - vm_compute. reflexivity.
  - vm_compute. reflexivity.
Defined.

Lemma trait_queries_are_memoised_witness :
  ∃ r self',
    File_trait_declaration_attributes sample_layout false sample_AttrIndex_trait 7
      attributes_file = (Ok r, self')
    ∧ File_trait_declaration_attributes sample_layout false sample_AttrIndex_trait 7
        self' = (Ok r, self').
Proof.
  eexists _, _. split; [vm_compute; reflexivity|].
  destruct (proj1 (trait_queries_are_memoised sample_layout false
                     sample_AttrIndex_trait sample_TextOffset_trait
                     sample_Sequence_trait) 7 _ attributes_file _ eq_refl)
    as (m & _ & Hagain & _).
  exact Hagain.
Defined.

Lemma entry_size_guard_stops_lookups_witness :
  outcome_of (try_get_partition sample_layout false wide_AttrIndex_trait
                "trait.attribute" attributes_file) attributes_blob = AssertFailed
  ∧ fst (File_trait_declaration_attributes sample_layout false wide_AttrIndex_trait 7
           attributes_file) = AssertFailed.
Proof.
  destruct (entry_size_guard_stops_lookups sample_layout wide_AttrIndex_trait
              attributes_file 4252 8) as (Htry & _ & Hquery).
  - vm_compute. reflexivity.
  - vm_compute. reflexivity.
  - vm_compute. discriminate.
  - split; [exact Htry|]. apply Hquery. reflexivity.
Defined.

Lemma accepted_length_is_unique_witness :
  fst (File_ctor sample_layout (extended attributes_blob [x00]))
  = Throw (runtime_error "corrupted file").
Proof.
  apply (proj1 (accepted_length_is_unique sample_layout attributes_blob [x00]
                  (λ H, eq_ind [x00] (λ l, match l with [] => False | _ => True end)
                          I [] H))
           attributes_file).
  vm_compute. reflexivity.
Defined.

Lemma get_partition_after_open_witness :
  ∃ toc names ds,
    outcome_of (table_of_contents sample_layout) attributes_blob = Ok toc
    ∧ outcome_of (rd_mapM (partition_name sample_layout)
                    (toc_elements sample_layout toc)) attributes_blob = Ok names
    ∧ outcome_of (rd_mapM (load_PartitionSummary sample_layout)
                    (toc_elements sample_layout toc)) attributes_blob = Ok ds
    ∧ match first_named ".msvc.trait.decl-attrs" names with
      | None =>
          outcome_of
            (get_partition sample_layout false sample_AttrIndex_trait
               ".msvc.trait.decl-attrs" attributes_file) attributes_blob
          = Throw out_of_range
          ∧ outcome_of
              (try_get_partition sample_layout false sample_AttrIndex_trait
                 ".msvc.trait.decl-attrs" attributes_file) attributes_blob
            = Ok None
      | Some i =>
          ∃ d, ds !! i = Some d
               ∧ outcome_of
                   (get_partition sample_layout false sample_AttrIndex_trait
                      ".msvc.trait.decl-attrs" attributes_file) attributes_blob
                 = (if false || bool_decide (ps_entry_size d
                                             = sizeof_T sample_AttrIndex_trait)
                    then Ok (resolved attributes_blob d)
                    else AssertFailed)
               ∧ outcome_of (File_get_data_pointer d) attributes_blob
                 = Ok (p_data (resolved attributes_blob d))
      end.
Proof.
  apply (get_partition_after_open sample_layout false sample_AttrIndex_trait
           attributes_blob attributes_file ".msvc.trait.decl-attrs").
  vm_compute. reflexivity.
Defined.

Lemma cached_accessor_is_transparent_witness :
  fst (File_cached_accessor sample_layout false _ (λ _, sample_AttrIndex_trait)
         FilePartitionCache.Declarations attributes_file)
  = outcome_of
      (get_partition sample_layout false sample_AttrIndex_trait
         (accessor_partition_name _ (λ _, sample_AttrIndex_trait)
            FilePartitionCache.Declarations) attributes_file) attributes_blob.
Proof.
  apply (cached_accessor_is_transparent sample_layout false
           sample_AttrIndex_trait sample_TextOffset_trait sample_Sequence_trait
           _ (λ _, sample_AttrIndex_trait) attributes_blob attributes_file
           FilePartitionCache.Declarations).
  exists attributes_file. split; [vm_compute; reflexivity | apply rtc_refl].
Defined.

Lemma open_minimal_file_witness :
  ∃ self,
    fst (File_ctor sample_layout minimal_blob) = Ok self
    ∧ blob_ self = minimal_blob
    ∧ table_of_contents_ self = ∅
    ∧ get_partition sample_layout false sample_AttrIndex_trait "scope.desc" self
        minimal_blob = (Throw out_of_range, [])
    ∧ try_get_partition sample_layout false sample_AttrIndex_trait "scope.desc" self
        minimal_blob = (Ok None, []).
Proof.
  apply (open_minimal_file sample_layout false sample_AttrIndex_trait minimal_blob 76
           "scope.desc").
  - reflexivity.
  - vm_compute. reflexivity.
  - vm_compute. reflexivity.
  - vm_compute. reflexivity.
  - vm_compute. reflexivity.
  - vm_compute. reflexivity.
Defined.

Lemma toc_outside_blob_is_read_witness :
  fst (File_ctor sample_layout truncated_attributes_blob) = Undefined.
Proof.
  apply (toc_outside_blob_is_read sample_layout truncated_attributes_blob
           {| toc_data := 4096 + 156; toc_count := 2 |} 1).
  - reflexivity.
  - vm_compute. reflexivity.
  - vm_compute. lia.
  - vm_compute. reflexivity.
Defined.
